(** * HFox downloader core: history store, archive converter, job runner,
      batch orchestrator and gallery-list parser

    A shallow embedding of [core/history.py], [core/converter.py],
    [core/downloader.py] and [core/sites/hentaifox.py], with the properties
    the design document states about them.

    Conventions.
    - A Python [str] is a Rocq [string] read as a sequence of code points
      below 256 (the Latin-1 range); the character ["178"%char] is U+00B2.
      The character predicates below ([isspace], [isdigit], decimal digits,
      [lower]) are Python's on that range.
    - A Python call that may raise returns [Exc A].
    - The SQLite table of the history store is a list of rows in rowid
      order, with the AUTOINCREMENT counter next to it.
    - The file system is a finite map from paths to nodes, threaded through
      the converter together with the log of the operations performed. *)

From Stdlib Require Import ZArith NArith Ascii String List Sorted Permutation Lia.
From Stdlib Require Import DecimalString.
From stdpp Require Import base option list strings gmap sorting.

Local Open Scope Z_scope.
Local Open Scope string_scope.
Local Open Scope list_scope.

(** ** Python exceptions and results *)

Inductive exc_kind :=
  | ValueError
  | TypeError
  | OSError
  | TimeoutExpired
  | OtherException.

(** An exception object: its class and [str(e)]. *)
Record exception := mkExc { exc_class : exc_kind; exc_text : string }.

Inductive Exc (A : Type) :=
  | Ok (a : A)
  | Raise (e : exception).
Arguments Ok {A} a.
Arguments Raise {A} e.

#[global] Instance exc_ret : MRet Exc := fun A a => Ok a.

#[global] Instance exc_bind : MBind Exc := fun A B k m =>
  match m with
  | Ok a => k a
  | Raise e => Raise e
  end.

Definition is_ok {A} (m : Exc A) : bool :=
  match m with Ok _ => true | Raise _ => false end.

(** ** Python [str] primitives *)

Module Py.

Definition code (c : ascii) : N := N_of_ascii c.

Definition in_range (lo hi : N) (c : ascii) : bool :=
  (N.leb lo (code c) && N.leb (code c) hi)%bool.

(** Unicode category Nd below 256: what [\d] matches and [int] reads. *)
Definition is_decimal (c : ascii) : bool := in_range 48 57 c.

(** [str.isdigit] on one character: Numeric_Type Decimal or Digit.  Below
    256 that adds the superscripts U+00B2, U+00B3 and U+00B9. *)
Definition isdigit_char (c : ascii) : bool :=
  (is_decimal c || N.eqb (code c) 178 || N.eqb (code c) 179
   || N.eqb (code c) 185)%bool.

(** [str.isspace] on one character; also the class [\s] and what
    [str.strip] removes. *)
Definition isspace_char (c : ascii) : bool :=
  (in_range 9 13 c || in_range 28 32 c || N.eqb (code c) 133
   || N.eqb (code c) 160)%bool.

(** [str.lower] on one character: A-Z, and U+00C0-U+00DE except U+00D7. *)
Definition lower_char (c : ascii) : ascii :=
  if (in_range 65 90 c
      || (in_range 192 222 c && negb (N.eqb (code c) 215)))%bool
  then ascii_of_N (code c + 32)
  else c.

Fixpoint lower (s : string) : string :=
  match s with
  | EmptyString => EmptyString
  | String c r => String (lower_char c) (lower r)
  end.

Fixpoint all_chars (p : ascii -> bool) (s : string) : bool :=
  match s with
  | EmptyString => true
  | String c r => (p c && all_chars p r)%bool
  end.

(** [s.isdigit()]: every character is a digit and there is at least one. *)
Definition isdigit (s : string) : bool :=
  match s with
  | EmptyString => false
  | _ => all_chars isdigit_char s
  end.

(** [s.replace(old, new)] for single characters. *)
Fixpoint replace_char (old new : ascii) (s : string) : string :=
  match s with
  | EmptyString => EmptyString
  | String c r =>
      String (if Ascii.eqb c old then new else c) (replace_char old new r)
  end.

(** [s[:n]] for [n >= 0]. *)
Fixpoint take (n : nat) (s : string) : string :=
  match n, s with
  | O, _ => EmptyString
  | _, EmptyString => EmptyString
  | S k, String c r => String c (take k r)
  end.

Fixpoint lstrip (s : string) : string :=
  match s with
  | String c r => if isspace_char c then lstrip r else s
  | EmptyString => EmptyString
  end.

(** Right strip: a character is dropped when it is a space and all that
    follows it has been dropped. *)
Fixpoint rstrip (s : string) : string :=
  match s with
  | EmptyString => EmptyString
  | String c r =>
      match rstrip r with
      | EmptyString => if isspace_char c then EmptyString else String c EmptyString
      | r' => String c r'
      end
  end.

Definition strip (s : string) : string := rstrip (lstrip s).

(** [sub in s]. *)
Fixpoint contains (sub s : string) : bool :=
  (String.prefix sub s
   || match s with
      | EmptyString => false
      | String _ r => contains sub r
      end)%bool.

Definition contains_char (c : ascii) (s : string) : bool :=
  negb (all_chars (fun d => negb (Ascii.eqb d c)) s).

(** [s.startswith(p)]. *)
Definition startswith (p s : string) : bool := String.prefix p s.

(** [s.split(sep)] for a one-character separator. *)
Fixpoint split_char (sep : ascii) (s : string) : list string :=
  match s with
  | EmptyString => [EmptyString]
  | String c r =>
      if Ascii.eqb c sep then EmptyString :: split_char sep r
      else match split_char sep r with
           | [] => [String c EmptyString]
           | p :: ps => String c p :: ps
           end
  end.

(** The longest prefix of decimal digits, and the rest. *)
Fixpoint span_decimal (s : string) : string * string :=
  match s with
  | String c r =>
      if is_decimal c
      then let '(d, t) := span_decimal r in (String c d, t)
      else (EmptyString, s)
  | EmptyString => (EmptyString, EmptyString)
  end.

(** The value of a run of decimal digits. *)
Fixpoint decimal_value (acc : Z) (s : string) : Z :=
  match s with
  | EmptyString => acc
  | String c r => decimal_value (10 * acc + (Z.of_N (code c) - 48)) r
  end.

(** [int(s)] for a string without sign, blanks or underscores: the only
    form the callers pass.  A character that is not a decimal digit raises
    [ValueError], as does the empty string.  The interpreter's bound on the
    number of digits it converts (4300 by default) is left out: no file
    name is that long. *)
Definition int (s : string) : Exc Z :=
  match s with
  | EmptyString =>
      Raise (mkExc ValueError "invalid literal for int() with base 10: ''")
  | _ =>
      if all_chars is_decimal s then Ok (decimal_value 0 s)
      else Raise (mkExc ValueError
                    ("invalid literal for int() with base 10: '" +:+ s +:+ "'"))
  end.

(** [str(n)] for an integer. *)
Definition str_of_Z (n : Z) : string := NilZero.string_of_int (Z.to_int n).

(** Truthiness of a string. *)
Definition nonempty (s : string) : bool :=
  match s with EmptyString => false | _ => true end.

End Py.

(** Text order of SQLite's BINARY collation, which is also Python's order on
    [str]: code point by code point. *)
Definition str_lt (a b : string) : bool :=
  match String.compare a b with Lt => true | _ => false end.

Definition str_le (a b : string) : bool := negb (str_lt b a).

(** ** Data model ([core/sites/base.py]) *)

(** A JSON-serialisable value, for the free-form metadata of a gallery. *)
#[warnings="-register-all"]
Inductive json :=
  | JNull
  | JBool (b : bool)
  | JNum (n : Z)
  | JStr (s : string)
  | JList (l : list json)
  | JDict (d : list (string * json)).

Record GalleryInfo := mkGalleryInfo {
  gi_id : string;
  gi_title : string;
  gi_url : string;
  gi_tags : list string;
  gi_artist : option string;
  gi_pages : option Z;
  gi_description : option string;
  gi_thumbnail_url : option string;
  gi_metadata : option (list (string * json))
}.

Record SearchResult := mkSearchResult {
  sr_galleries : list GalleryInfo;
  sr_total_count : Z;
  sr_current_page : Z;
  sr_total_pages : Z;
  sr_has_next : bool
}.

(** ** History store ([core/history.py]) *)

(** A row of the [downloads] table; [he_metadata] is the JSON text as
    persisted, [None] for SQL NULL. *)
Record HistoryEntry := mkHistoryEntry {
  he_id : Z;
  he_gallery_id : string;
  he_title : string;
  he_url : string;
  he_download_path : string;
  he_downloaded_at : string;
  he_files_count : Z;
  he_site : string;
  he_metadata : option string
}.

(** The database file: the rows of [downloads] in rowid order and the
    AUTOINCREMENT high-water mark kept in [sqlite_sequence].  Integers are
    unbounded here; SQLite's are 64 bits wide. *)
Record Database := mkDatabase {
  downloads : list HistoryEntry;
  sqlite_sequence : Z
}.

(** What [_init_database] leaves when the file did not exist. *)
Definition empty_database : Database := mkDatabase [] 0.

Section History.

(** [json.dumps], of the Python standard library. *)
Variable json_dumps : json -> string.

Definition key_matches (gallery_id site : string) (e : HistoryEntry) : bool :=
  (String.eqb (he_gallery_id e) gallery_id && String.eqb (he_site e) site)%bool.

(** SELECT COUNT( * ) FROM downloads WHERE gallery_id = ? AND site = ? *)
Definition count_key (db : Database) (gallery_id site : string) : nat :=
  length (filter (fun e => key_matches gallery_id site e = true) (downloads db)).

Definition is_downloaded (db : Database) (gallery_id site : string) : bool :=
  Nat.ltb 0 (count_key db gallery_id site).

(** The row that ORDER BY downloaded_at DESC puts first among [rows]: one
    with the greatest timestamp; among equal timestamps (an order SQL leaves
    open) the one of lowest rowid. *)
Fixpoint newest (rows : list HistoryEntry) : option HistoryEntry :=
  match rows with
  | [] => None
  | e :: rest =>
      match newest rest with
      | None => Some e
      | Some e' =>
          if str_lt (he_downloaded_at e) (he_downloaded_at e')
          then Some e' else Some e
      end
  end.

Definition get_download_id (db : Database) (gallery_id site : string)
  : option Z :=
  he_id <$>
    newest (filter (fun e => key_matches gallery_id site e = true) (downloads db)).

(** The rowid an INSERT receives under AUTOINCREMENT: one more than the
    largest rowid the table has ever held. *)
Definition next_rowid (db : Database) : Z :=
  1 + foldr (fun e m => Z.max (he_id e) m) (sqlite_sequence db) (downloads db).

(** [add_download]; [now] is [datetime.now().isoformat()].  The result is
    the returned value ([None] for Python's [None]) and the database
    afterwards. *)
Definition add_download (db : Database) (gallery_info : GalleryInfo)
    (download_path : string) (files_count : Z) (site : string) (now : string)
  : option Z * Database :=
  if is_downloaded db (gi_id gallery_info) site
  then (get_download_id db (gi_id gallery_info) site, db)
  else
    let metadata_json :=
      match gi_metadata gallery_info with
      | Some (kv :: m) => Some (json_dumps (JDict (kv :: m)))
      | _ => None
      end in
    let rowid := next_rowid db in
    (Some rowid,
     mkDatabase
       (downloads db ++
        [mkHistoryEntry rowid (gi_id gallery_info) (gi_title gallery_info)
           (gi_url gallery_info) download_path now files_count site
           metadata_json])
       rowid).

(** SQL SUM: NULL over no rows. *)
Definition sql_sum (l : list Z) : option Z :=
  match l with
  | [] => None
  | _ => Some (foldr Z.add 0 l)
  end.

(** SELECT site, COUNT( * ) ... GROUP BY site, as the dict built from it. *)
Definition group_by_site (rows : list HistoryEntry) : gmap string Z :=
  foldr (fun e m => <[he_site e := 1 + default 0 (m !! he_site e)]> m) ∅ rows.

Record Stats := mkStats {
  total_downloads : Z;
  total_files : Z;
  by_site : gmap string Z;
  recent_downloads : Z
}.

(** [get_stats]; [week_ago] is the text of SQLite's
    [datetime('now', '-7 days')]. *)
Definition get_stats (db : Database) (week_ago : string) : Stats :=
  let rows := downloads db in
  mkStats
    (Z.of_nat (length rows))
    (match sql_sum (map he_files_count rows) with
     | Some n => if Z.eqb n 0 then 0 else n
     | None => 0
     end)
    (group_by_site rows)
    (Z.of_nat (length (filter (fun e => str_le week_ago (he_downloaded_at e) = true) rows))).

(** DELETE FROM downloads *)
Definition clear_history (db : Database) : Database :=
  mkDatabase [] (sqlite_sequence db).

(** The row ORDER BY downloaded_at ASC puts first (lowest rowid among equal
    timestamps). *)
Fixpoint oldest (rows : list HistoryEntry) : option HistoryEntry :=
  match rows with
  | [] => None
  | e :: rest =>
      match oldest rest with
      | None => Some e
      | Some e' =>
          if str_lt (he_downloaded_at e') (he_downloaded_at e)
          then Some e' else Some e
      end
  end.

(** SELECT id FROM downloads ORDER BY downloaded_at ASC LIMIT n *)
Fixpoint oldest_ids (n : nat) (rows : list HistoryEntry) : list Z :=
  match n with
  | O => []
  | S k =>
      match oldest rows with
      | None => []
      | Some e =>
          he_id e :: oldest_ids k (filter (fun r => he_id r <> he_id e) rows)
      end
  end.

(** [cleanup_old_entries]; [max_entries] is the argument, or the configured
    [history.max_history_entries] when the argument is [None]. *)
Definition cleanup_old_entries (db : Database) (max_entries : Z) : Database :=
  let current_count := Z.of_nat (length (downloads db)) in
  if Z.ltb max_entries current_count
  then
    let entries_to_delete := current_count - max_entries in
    let ids := oldest_ids (Z.to_nat entries_to_delete) (downloads db) in
    mkDatabase (filter (fun r => he_id r ∉ ids) (downloads db))
               (sqlite_sequence db)
  else db.

(** The stores the program can build: every INSERT goes through
    [add_download]. *)
Inductive reachable : Database -> Prop :=
  | reach_init : reachable empty_database
  | reach_add db gi path n site now :
      reachable db -> reachable (snd (add_download db gi path n site now))
  | reach_cleanup db max_entries :
      reachable db -> reachable (cleanup_old_entries db max_entries)
  | reach_clear db : reachable db -> reachable (clear_history db).

End History.

(** ** Archive converter ([core/converter.py]) *)

(** *** Paths and the file system *)

(** A [pathlib] path: the anchor (drive and root, empty for a relative
    path) and the components after it. *)
Record Path := mkPath { anchor : string; parts : list string }.

#[global] Instance Path_eq_dec : EqDecision Path.
Proof. solve_decision. Defined.

#[global] Instance Path_countable : Countable Path.
Proof.
  refine (inj_countable' (fun p => (anchor p, parts p))
                         (fun ap => mkPath ap.1 ap.2) _).
  intros []; reflexivity.
Defined.

(** [p.name], [p.parent] and [p / name]. *)
Definition path_name (p : Path) : string := List.last (parts p) "".
Definition path_parent (p : Path) : Path :=
  mkPath (anchor p) (List.removelast (parts p)).
Definition path_child (p : Path) (name : string) : Path :=
  mkPath (anchor p) (parts p ++ [name]).

(** The text of [s] from its last dot on, if it has a dot. *)
Fixpoint last_dot_suffix (s : string) : option string :=
  match s with
  | EmptyString => None
  | String c r =>
      match last_dot_suffix r with
      | Some x => Some x
      | None => if Ascii.eqb c "." then Some s else None
      end
  end.

(** [p.suffix] of [pathlib], as up to CPython 3.12: [name[i:]] for
    [i = name.rfind('.')] when [0 < i < len(name) - 1], and the empty string
    otherwise. *)
Definition suffix_of_name (name : string) : string :=
  match name with
  | EmptyString => ""
  | String c r =>
      match last_dot_suffix r with
      | Some (String _ (String d t)) => String "." (String d t)
      | _ => ""
      end
  end.

Definition path_suffix (p : Path) : string := suffix_of_name (path_name p).

Inductive node :=
  | File
  | Dir (names : list string).

Inductive fs_op :=
  | FsExists (p : Path)
  | FsIterdir (p : Path)
  | FsIsFile (p : Path)
  | FsOpen (p : Path)
  | FsWrite (p : Path)
  | FsUnlink (p : Path)
  | FsRmdir (p : Path).

(** [display.print_warning] and [display.print_info] differ in the marker
    and the colour they add to the message. *)
Inductive msg_level :=
  | Warning
  | Info.

(** The world the converter runs in: the file system, the log of the
    operations performed on it, and the messages handed to the display. *)
Record world := mkWorld {
  w_fs : gmap Path node;
  w_log : list fs_op;
  w_console : list (msg_level * string)
}.

(** A computation that may raise and that changes the world. *)
Definition M (A : Type) : Type := world -> Exc A * world.

#[global] Instance M_ret : MRet M := fun A a w => (Ok a, w).

#[global] Instance M_bind : MBind M := fun A B k m w =>
  match m w with
  | (Ok a, w') => k a w'
  | (Raise e, w') => (Raise e, w')
  end.

(** try: [body] except Exception as e: [handler e]. *)
Definition try_except {A} (body : M A) (handler : exception -> M A) : M A :=
  fun w =>
    match body w with
    | (Ok a, w') => (Ok a, w')
    | (Raise e, w') => handler e w'
    end.

Definition raise {A} (k : exc_kind) (text : string) : M A :=
  fun w => (Raise (mkExc k text), w).

Definition lift_exc {A} (x : Exc A) : M A := fun w => (x, w).

Definition log_op (o : fs_op) : M unit :=
  fun w => (Ok (), mkWorld (w_fs w) (w_log w ++ [o]) (w_console w)).

Definition display_print (l : msg_level) (s : string) : M unit :=
  fun w => (Ok (), mkWorld (w_fs w) (w_log w) (w_console w ++ [(l, s)])).

Definition lookup_node (p : Path) : M (option node) :=
  fun w => (Ok (w_fs w !! p), w).

Definition set_fs (f : gmap Path node -> gmap Path node) : M unit :=
  fun w => (Ok (), mkWorld (f (w_fs w)) (w_log w) (w_console w)).

(** [p.exists()] *)
Definition path_exists (p : Path) : M bool :=
  _ ← log_op (FsExists p);
  n ← lookup_node p;
  mret (bool_decide (is_Some n)).

(** [p.is_file()] *)
Definition path_is_file (p : Path) : M bool :=
  _ ← log_op (FsIsFile p);
  n ← lookup_node p;
  mret (match n with Some File => true | _ => false end).

(** [p.iterdir()], in the order the directory lists its entries.  The
    error texts stand for the operating system's. *)
Definition path_iterdir (p : Path) : M (list Path) :=
  _ ← log_op (FsIterdir p);
  n ← lookup_node p;
  match n with
  | Some (Dir names) => mret (map (path_child p) names)
  | Some File => raise OSError "[Errno 20] Not a directory"
  | None => raise OSError "[Errno 2] No such file or directory"
  end.

(** Taking an entry out of its directory, or putting it in. *)
Definition detach (p : Path) (fs : gmap Path node) : gmap Path node :=
  let fs' := delete p fs in
  match fs' !! path_parent p with
  | Some (Dir names) =>
      <[path_parent p :=
          Dir (filter (fun n => n <> path_name p) names)]> fs'
  | _ => fs'
  end.

Definition attach (p : Path) (n : node) (fs : gmap Path node)
  : gmap Path node :=
  let fs' := <[p := n]> fs in
  match fs !! path_parent p with
  | Some (Dir names) =>
      if bool_decide (path_name p ∈ names) then fs'
      else <[path_parent p := Dir (names ++ [path_name p])]> fs'
  | _ => fs'
  end.

(** [p.unlink()] and [os.unlink(p)] *)
Definition path_unlink (p : Path) : M unit :=
  _ ← log_op (FsUnlink p);
  n ← lookup_node p;
  match n with
  | Some File => set_fs (detach p)
  | Some (Dir _) => raise OSError "[Errno 21] Is a directory"
  | None => raise OSError "[Errno 2] No such file or directory"
  end.

(** [p.rmdir()] *)
Definition path_rmdir (p : Path) : M unit :=
  _ ← log_op (FsRmdir p);
  n ← lookup_node p;
  match n with
  | Some (Dir []) => set_fs (detach p)
  | Some (Dir _) => raise OSError "[Errno 39] Directory not empty"
  | Some File => raise OSError "[Errno 20] Not a directory"
  | None => raise OSError "[Errno 2] No such file or directory"
  end.

(** Opening [p] for writing and filling it: the file must not be a
    directory and its directory must exist; [outcome] is how the writer
    ends, and the file is there afterwards when it ends well. *)
Definition write_file (p : Path) (outcome : Exc unit) : M unit :=
  _ ← log_op (FsWrite p);
  n ← lookup_node p;
  d ← lookup_node (path_parent p);
  match n, d with
  | Some (Dir _), _ => raise OSError "[Errno 21] Is a directory"
  | _, Some (Dir _) => _ ← lift_exc outcome; set_fs (attach p File)
  | _, _ => raise OSError "[Errno 2] No such file or directory"
  end.

(** Opening [p] for reading. *)
Definition read_file {A} (p : Path) (outcome : Exc A) : M A :=
  _ ← log_op (FsOpen p);
  n ← lookup_node p;
  match n with
  | Some File => lift_exc outcome
  | Some (Dir _) => raise OSError "[Errno 21] Is a directory"
  | None => raise OSError "[Errno 2] No such file or directory"
  end.

(** *** Imaging and archive back ends *)

(** What the converter reads from a decoded image. *)
Record Image := mkImage {
  img_mode : string;
  img_width : Z;
  img_height : Z
}.

(** Pillow, [zipfile] and [tempfile], as far as the converter calls them.
    Each entry tells how the call ends; the converter's own file-system
    effects are written out in the functions below. *)
Record Backend := mkBackend {
  (** [Image.open(path)] *)
  pil_open : Path -> Exc Image;
  (** [img.convert('RGB')] *)
  pil_convert_rgb : Image -> Exc Image;
  (** [img.resize((w, h), LANCZOS)] *)
  pil_resize : Image -> Z -> Z -> Exc Image;
  (** [int(height * (max_width / width))], in binary64 arithmetic *)
  scaled_height : Z -> Z -> Z -> Z;
  (** [first.save(path, format='PDF', save_all=True, append_images=rest,
      quality=q)] *)
  pil_save_pdf : Path -> list Image -> Z -> Exc unit;
  (** [img.save(path, format='JPEG', quality=q)] *)
  pil_save_jpeg : Path -> Image -> Z -> Exc unit;
  (** [zipfile.ZipFile(path, 'w', ZIP_DEFLATED, compresslevel=level)] *)
  zip_open : Path -> Z -> Exc unit;
  (** [cbz.write(source, archive_name)] into the archive at the first path *)
  zip_write : Path -> Path -> string -> Exc unit;
  (** [Path(tempfile.mktemp(suffix='.jpg'))], given the files that exist *)
  mktemp_jpg : gmap Path node -> Path
}.

(** The [conversion.*] options the converter reads, defaults resolved. *)
Record ConversionConfig := mkConversionConfig {
  max_image_width : Z;
  pdf_quality : Z;
  cbz_compression : Z;
  optimize_cbz_images : bool;
  cbz_quality : Z;
  max_cbz_width : Z
}.

Record ConversionResult := mkConversionResult {
  cr_success : bool;
  cr_output_path : option Path;
  cr_input_files_count : Z;
  cr_error_message : option string
}.

(** *** Natural sort *)

Definition supported_formats : list string :=
  [".jpg"; ".jpeg"; ".png"; ".webp"; ".gif"; ".bmp"].

(** [re.split(r'(\d+)', text)]: the text between the maximal runs of decimal
    digits at the even positions, the runs at the odd ones. *)
Fixpoint re_split_digits (text : string) : list string :=
  match text with
  | EmptyString => [EmptyString]
  | String c r =>
      let ps := re_split_digits r in
      if Py.is_decimal c then
        match ps with
        | EmptyString :: d :: rest => EmptyString :: String c d :: rest
        | _ => EmptyString :: String c EmptyString :: ps
        end
      else
        match ps with
        | t :: rest => String c t :: rest
        | [] => [String c EmptyString]
        end
  end.

(** An element of a sort key. *)
Inductive key_item :=
  | KInt (n : Z)
  | KStr (s : string).

Fixpoint exc_map {A B} (f : A -> Exc B) (l : list A) : Exc (list B) :=
  match l with
  | [] => Ok []
  | x :: r => y ← f x; ys ← exc_map f r; Ok (y :: ys)
  end.

(** [int(c) if c.isdigit() else c.lower()] *)
Definition key_of_piece (c : string) : Exc key_item :=
  if Py.isdigit c then n ← Py.int c; Ok (KInt n)
  else Ok (KStr (Py.lower c)).

Definition _natural_sort_key (text : string) : Exc (list key_item) :=
  exc_map key_of_piece (re_split_digits text).

(** Python's [==] and [<] on the items of a key. *)
Definition item_eq (a b : key_item) : bool :=
  match a, b with
  | KInt m, KInt n => Z.eqb m n
  | KStr s, KStr t => String.eqb s t
  | _, _ => false
  end.

Definition item_lt (a b : key_item) : Exc bool :=
  match a, b with
  | KInt m, KInt n => Ok (Z.ltb m n)
  | KStr s, KStr t => Ok (str_lt s t)
  | KInt _, KStr _ =>
      Raise (mkExc TypeError
               "'<' not supported between instances of 'int' and 'str'")
  | KStr _, KInt _ =>
      Raise (mkExc TypeError
               "'<' not supported between instances of 'str' and 'int'")
  end.

(** Python's [<] on lists: the first position where the items differ
    decides, and a proper prefix is smaller. *)
Fixpoint list_lt (a b : list key_item) : Exc bool :=
  match a, b with
  | [], [] => Ok false
  | [], _ :: _ => Ok true
  | _ :: _, [] => Ok false
  | x :: a', y :: b' => if item_eq x y then list_lt a' b' else item_lt x y
  end.

(** [sorted(l, key=key)]: the keys are computed first, one call per element
    in order; the sort is stable and uses [<] on the keys only. *)
Section Sorted.
Context {A K : Type} (lt : K -> K -> Exc bool).

Fixpoint insert_keyed (x : K * A) (l : list (K * A)) : Exc (list (K * A)) :=
  match l with
  | [] => Ok [x]
  | y :: r =>
      b ← lt y.1 x.1;
      if b : bool then r' ← insert_keyed x r; Ok (y :: r')
      else Ok (x :: y :: r)
  end.

Fixpoint sort_keyed (l : list (K * A)) : Exc (list (K * A)) :=
  match l with
  | [] => Ok []
  | x :: r => r' ← sort_keyed r; insert_keyed x r'
  end.

Definition sorted (key : A -> Exc K) (l : list A) : Exc (list A) :=
  keyed ← exc_map (fun x => k ← key x; Ok (k, x)) l;
  s ← sort_keyed keyed;
  Ok (map snd s).
End Sorted.

(** *** The converter *)

Section Converter.

Variable be : Backend.
Variable cfg : ConversionConfig.

Fixpoint filterM {A} (p : A -> M bool) (l : list A) : M (list A) :=
  match l with
  | [] => mret []
  | x :: r =>
      b ← p x;
      r' ← filterM p r;
      mret (if b : bool then x :: r' else r')
  end.

Definition is_supported (p : Path) : bool :=
  bool_decide (Py.lower (path_suffix p) ∈ supported_formats).

Definition get_image_files (directory : Path) : M (list Path) :=
  ex ← path_exists directory;
  if negb ex then mret []
  else
    entries ← path_iterdir directory;
    image_files ←
      filterM (fun file_path =>
                 f ← path_is_file file_path;
                 mret (f && is_supported file_path)%bool) entries;
    lift_exc (sorted list_lt (fun x => _natural_sort_key (path_name x))
                image_files).

(** [f"{n:03d}"] *)
Definition pad3 (n : Z) : string :=
  let s := Py.str_of_Z n in
  match String.length s with
  | 1%nat => "00" +:+ s
  | 2%nat => "0" +:+ s
  | _ => s
  end.

Definition _delete_source_files (image_files : list Path) (source_dir : Path)
  : M unit :=
  try_except
    (_ ← mapM (fun img_path =>
                 ex ← path_exists img_path;
                 if ex : bool then path_unlink img_path else mret ())
              image_files;
     remaining_files ← path_iterdir source_dir;
     match remaining_files with
     | [] =>
         _ ← path_rmdir source_dir;
         display_print Info
           ("Deleted empty directory: " +:+ path_name source_dir)
     | _ =>
         let non_image_files :=
           filter (fun f => is_supported f = false) remaining_files in
         if Nat.eqb (length non_image_files) (length remaining_files)
         then display_print Info
                ("Kept directory with "
                 +:+ Py.str_of_Z (Z.of_nat (length non_image_files))
                 +:+ " non-image files")
         else mret ()
     end)
    (fun e =>
       display_print Warning
         ("Could not delete source files: " +:+ exc_text e)).

(** One round of the loop of [convert_to_pdf]: the page for [img_path], or
    [None] when the image is skipped. *)
Definition load_pdf_page (img_path : Path) : M (option Image) :=
  try_except
    (img ← read_file img_path (pil_open be img_path);
     img ← (if String.eqb (img_mode img) "RGB" then mret img
            else lift_exc (pil_convert_rgb be img));
     let max_width := max_image_width cfg in
     img ← (if Z.ltb max_width (img_width img)
            then
              let new_height :=
                scaled_height be (img_height img) max_width (img_width img) in
              lift_exc (pil_resize be img max_width new_height)
            else mret img);
     mret (Some img))
    (fun e =>
       _ ← display_print Warning
             ("Skipping " +:+ path_name img_path +:+ ": " +:+ exc_text e);
       mret None).

Definition failed (count : Z) (message : string) : ConversionResult :=
  mkConversionResult false None count (Some message).

Definition convert_to_pdf (source_dir : Path) (output_path : option Path)
    (delete_source : bool) (quality : option Z) : M ConversionResult :=
  try_except
    (image_files ← get_image_files source_dir;
     try_except
       (match image_files with
        | [] => mret (failed 0 "No image files found in directory")
        | _ =>
            let output_path :=
              default (path_child source_dir (path_name source_dir +:+ ".pdf"))
                      output_path in
            pages ← mapM load_pdf_page image_files;
            let pdf_images := omap id pages in
            match pdf_images with
            | [] =>
                mret (failed (Z.of_nat (length image_files))
                        "No images could be processed")
            | _ =>
                let pdf_quality := default (pdf_quality cfg) quality in
                _ ← write_file output_path
                      (pil_save_pdf be output_path pdf_images pdf_quality);
                _ ← (if delete_source
                     then _delete_source_files image_files source_dir
                     else mret ());
                mret (mkConversionResult true (Some output_path)
                        (Z.of_nat (length image_files)) None)
            end
        end)
       (fun e =>
          mret (failed (Z.of_nat (length image_files)) (exc_text e))))
    (fun e => mret (failed 0 (exc_text e))).

Definition _optimize_image_for_cbz (img_path : Path) (quality : Z) : M Path :=
  try_except
    (img ← read_file img_path (pil_open be img_path);
     let max_width := max_cbz_width cfg in
     if (Z.leb (img_width img) max_width
         && bool_decide (Py.lower (path_suffix img_path) ∈ [".jpg"; ".jpeg"]))%bool
     then mret img_path
     else
       img ← (if Z.ltb max_width (img_width img)
              then
                let new_height :=
                  scaled_height be (img_height img) max_width (img_width img) in
                lift_exc (pil_resize be img max_width new_height)
              else mret img);
       img ← (if bool_decide (img_mode img ∈ ["RGB"; "L"]) then mret img
              else lift_exc (pil_convert_rgb be img));
       fs ← (fun w => (Ok (w_fs w), w));
       let temp_path := mktemp_jpg be fs in
       _ ← write_file temp_path (pil_save_jpeg be temp_path img quality);
       mret temp_path)
    (fun _ => mret img_path).

(** One round of the loop of [convert_to_cbz], for the image at index [i]. *)
Definition add_cbz_entry (output_path : Path) (quality : option Z)
    (i : nat) (img_path : Path) : M unit :=
  try_except
    (let extension := Py.lower (path_suffix img_path) in
     let archive_name := pad3 (Z.of_nat i + 1) +:+ extension in
     if optimize_cbz_images cfg then
       let cbz_quality := default (cbz_quality cfg) quality in
       optimized_path ← _optimize_image_for_cbz img_path cbz_quality;
       _ ← read_file optimized_path
             (zip_write be output_path optimized_path archive_name);
       if bool_decide (optimized_path <> img_path)
       then path_unlink optimized_path
       else mret ()
     else
       read_file img_path (zip_write be output_path img_path archive_name))
    (fun e =>
       display_print Warning
         ("Skipping " +:+ path_name img_path +:+ ": " +:+ exc_text e)).

Definition convert_to_cbz (source_dir : Path) (output_path : option Path)
    (delete_source : bool) (quality : option Z) : M ConversionResult :=
  try_except
    (image_files ← get_image_files source_dir;
     try_except
       (match image_files with
        | [] => mret (failed 0 "No image files found in directory")
        | _ =>
            let output_path :=
              default (path_child source_dir (path_name source_dir +:+ ".cbz"))
                      output_path in
            _ ← write_file output_path
                  (zip_open be output_path (cbz_compression cfg));
            _ ← mapM (fun '(i, img_path) =>
                        add_cbz_entry output_path quality i img_path)
                     (imap (fun i p => (i, p)) image_files);
            _ ← (if delete_source
                 then _delete_source_files image_files source_dir
                 else mret ());
            mret (mkConversionResult true (Some output_path)
                    (Z.of_nat (length image_files)) None)
        end)
       (fun e =>
          mret (failed (Z.of_nat (length image_files)) (exc_text e))))
    (fun e => mret (failed 0 (exc_text e))).

Definition convert_gallery (source_dir : Path) (format_type : string)
    (output_path : option Path) (delete_source : bool) (quality : option Z)
  : M ConversionResult :=
  let format_type := Py.lower format_type in
  if String.eqb format_type "pdf"
  then convert_to_pdf source_dir output_path delete_source quality
  else if String.eqb format_type "cbz"
  then convert_to_cbz source_dir output_path delete_source quality
  else mret (failed 0 ("Unsupported format: " +:+ format_type)).

End Converter.

(** ** Download job runner and batch orchestrator ([core/downloader.py]) *)

Record DownloadResult := mkDownloadResult {
  dr_success : bool;
  dr_gallery_info : option GalleryInfo;
  dr_download_path : option Path;
  dr_files_downloaded : Z;
  dr_error_message : option string
}.

(** [subprocess.CompletedProcess] with captured text output. *)
Record CompletedProcess := mkCompletedProcess {
  returncode : Z;
  stdout : string;
  stderr : string
}.

(** What one job meets outside the program: the temporary configuration
    file, the gallery-dl process and the removal of the file.
    [subprocess_run] raises [TimeoutExpired] when the hour has passed, and
    e.g. [OSError] when the tool is missing. *)
Record JobEnv := mkJobEnv {
  (** [NamedTemporaryFile] and [json.dump]: the name of the file written *)
  write_temp_config : json -> Exc string;
  (** [subprocess.run(cmd, capture_output=True, text=True, timeout=3600)],
      which also depends on the configuration written *)
  subprocess_run : json -> list string -> Exc CompletedProcess;
  (** [os.unlink(config_file)] *)
  os_unlink : string -> Exc unit
}.

(** The options the downloader reads, defaults resolved. *)
Record DownloadConfig := mkDownloadConfig {
  log_level : string;
  enable_history : bool
}.

(** [str(path)] and [Path(text)], which depend on the platform. *)
Record PathFlavour := mkPathFlavour {
  path_of_str : string -> Path;
  str_of_path : Path -> string
}.

(** The double quote has code 34. *)
Definition invalid_chars : string := "<>:" +:+ String "034" "/\|?*".

Definition _sanitize_filename (filename : string) : string :=
  let filename :=
    fold_left (fun f char => Py.replace_char char "_" f)
              (list_ascii_of_string invalid_chars) filename in
  let filename :=
    if Nat.ltb 200 (String.length filename)
    then Py.take 200 filename +:+ "..."
    else filename in
  Py.strip filename.

Fixpoint dict_set (k : string) (v : json) (d : list (string * json))
  : list (string * json) :=
  match d with
  | [] => [(k, v)]
  | (k', v') :: r =>
      if String.eqb k' k then (k, v) :: r else (k', v') :: dict_set k v r
  end.

Section Downloader.

Variable json_dumps : json -> string.
Variable flavour : PathFlavour.
Variable config : DownloadConfig.

(** [self.base_config["extractor"]] and the other entries of
    [self.base_config], as [_get_base_config] built them. *)
Variable base_extractor : list (string * json).
Variable base_other : list (string * json).

(** [_prepare_config].  The copy of [base_config] is shallow, so the two
    entries are written into the shared [extractor] dict; every call writes
    both, so the data handed to [json.dump] is what is computed here. *)
Definition _prepare_config (gallery_info : option GalleryInfo) : json :=
  let directory :=
    match gallery_info with
    | Some g => JList [JStr (_sanitize_filename (gi_title g))]
    | None => JList [JStr "{title}"]
    end in
  let extractor :=
    dict_set "filename" (JStr "{filename}.{extension}")
      (dict_set "directory" directory base_extractor) in
  JDict (dict_set "extractor" (JDict extractor) base_other).

Definition image_exts : list string := [".webp"; ".jpg"; ".png"; ".gif"].

Definition mentions_image (line : string) : bool :=
  existsb (fun ext => Py.contains ext line) image_exts.

Definition _extract_download_path (output : string) : option Path :=
  match
    List.find (fun line => (Py.contains "Downloads" line && mentions_image line)%bool)
              (Py.split_char "010" output)
  with
  | Some line => Some (path_parent (path_of_str flavour (Py.strip line)))
  | None => None
  end.

Definition _count_downloaded_files (output : string) : Z :=
  Z.of_nat
    (length
       (List.filter
          (fun line =>
             (mentions_image line
              && Py.contains "Downloads" line
              && negb (existsb (fun skip => Py.contains skip (Py.lower line))
                         ["error"; "failed"; "skipping"]))%bool)
          (Py.split_char "010" output))).

(** The command line of [download_gallery]. *)
Definition gallery_dl_command (config_file url : string) : list string :=
  ["gallery-dl"; "--config"; config_file]
  ++ (if String.eqb (log_level config) "DEBUG" then ["--verbose"] else [])
  ++ [url].

Definition failure (gallery_info : option GalleryInfo) (message : string)
  : DownloadResult :=
  mkDownloadResult false gallery_info None 0 (Some message).

(** [download_gallery], with the history store passed through; [now] is the
    clock reading used if a row is inserted.  Faults of the storage layer
    are not part of the model: [add_download] always returns. *)
Definition download_gallery (env : JobEnv) (now : string) (url : string)
    (gallery_info : option GalleryInfo) (db : Database)
  : DownloadResult * Database :=
  let attempt : Exc (DownloadResult * Database) :=
    let config_data := _prepare_config gallery_info in
    config_file ← write_temp_config env config_data;
    let cmd := gallery_dl_command config_file url in
    result ← subprocess_run env config_data cmd;
    _ ← os_unlink env config_file;
    if Z.eqb (returncode result) 0 then
      let download_path := _extract_download_path (stdout result) in
      let files_count := _count_downloaded_files (stdout result) in
      let db' :=
        match enable_history config, gallery_info, download_path with
        | true, Some g, Some p =>
            snd (add_download json_dumps db g (str_of_path flavour p)
                   files_count "hentaifox" now)
        | _, _, _ => db
        end in
      Ok (mkDownloadResult true gallery_info download_path files_count None,
          db')
    else
      Ok (mkDownloadResult false gallery_info None 0 (Some (stderr result)),
          db)
  in
  match attempt with
  | Ok r => r
  | Raise e =>
      match exc_class e with
      | TimeoutExpired => (failure gallery_info "Download timed out", db)
      | _ => (failure gallery_info (exc_text e), db)
      end
  end.

(** A call of the progress callback: message, completed, total. *)
Definition progress_event : Type := string * Z * Z.


(** The body of the loop over [as_completed]: [outcome] is what
    [future.result()] returns or raises, [i] the position in completion
    order.  The callback is an observer: its calls are recorded. *)
Definition collect (has_callback : bool) (total : Z) (i : nat)
    (outcome : Exc DownloadResult)
  : list progress_event * DownloadResult :=
  (if has_callback
   then [("Completed " +:+ Py.str_of_Z (Z.of_nat i + 1) +:+ "/"
          +:+ Py.str_of_Z total, Z.of_nat i + 1, total)]
   else [],
   match outcome with
   | Ok result => result
   | Raise e => mkDownloadResult false None None 0 (Some (exc_text e))
   end).

(** The loop over the completed futures, started at position [i]; [run]
    gives each future's outcome and the store after it. *)
Fixpoint gather (has_callback : bool) (total : Z)
    (run : nat * string -> Database -> Exc DownloadResult * Database)
    (i : nat) (completed : list (nat * string)) (db : Database)
  : list progress_event * list DownloadResult * Database :=
  match completed with
  | [] => ([], [], db)
  | future :: rest =>
      let '(outcome, db1) := run future db in
      let '(events, result) := collect has_callback total i outcome in
      let '(events', results, db2) :=
        gather has_callback total run (S i) rest db1 in
      (events ++ events', result :: results, db2)
  end.

(** [download_multiple].  [completed] is the order in which [as_completed]
    yields the submitted futures: the executor's choice, any order of
    [submit_all urls] for a pool of at least one worker.  Job [i] runs in
    [envs i] at time [clock i]. *)
Definition download_multiple (has_callback : bool) (envs : nat -> JobEnv)
    (clock : nat -> string) (urls : list string)
    (completed : list (nat * string)) (db : Database)
  : list progress_event * list DownloadResult * Database :=
  gather has_callback (Z.of_nat (length urls))
    (fun future db =>
       let '(r, db') :=
         download_gallery (envs future.1) (clock future.1) future.2 None db in
       (Ok r, db'))
    0 completed db.

End Downloader.

(** ** Gallery-list parser ([core/sites/hentaifox.py]) *)

(** *** The two regular expressions of the parser *)

(** [s] without the prefix [p], when it has it. *)
Fixpoint strip_prefix (p s : string) : option string :=
  match p, s with
  | EmptyString, _ => Some s
  | String a p', String b s' =>
      if Ascii.eqb a b then strip_prefix p' s' else None
  | String _ _, EmptyString => None
  end.

Fixpoint span_space (s : string) : string * string :=
  match s with
  | String c r =>
      if Py.isspace_char c
      then let '(d, t) := span_space r in (String c d, t)
      else (EmptyString, s)
  | EmptyString => (EmptyString, EmptyString)
  end.

(** A match of [lit(\d+)] at the start of [s]: group 1. *)
Definition match_literal_digits (lit s : string) : option string :=
  match strip_prefix lit s with
  | Some r =>
      let d := (Py.span_decimal r).1 in
      if Py.nonempty d then Some d else None
  | None => None
  end.

(** [re.search] of a pattern matched at a position by [m]: the leftmost
    position where it matches. *)
Fixpoint re_search (m : string -> option string) (s : string) : option string :=
  match m s with
  | Some g => Some g
  | None =>
      match s with
      | EmptyString => None
      | String _ r => re_search m r
      end
  end.

(** [\s+] and [\d+] at the start of [s]: what follows the run, when the run
    is not empty.  The classes are disjoint from what follows them in the
    pattern below, so the greedy run is the only one that can match. *)
Definition skip_spaces (s : string) : option string :=
  let '(d, t) := span_space s in if Py.nonempty d then Some t else None.

Definition skip_digits (s : string) : option string :=
  let '(d, t) := Py.span_decimal s in if Py.nonempty d then Some t else None.

(** A match of [page\s+\d+\s+of\s+(\d+)] at the start of [s]: group 1. *)
Definition match_page_of (s : string) : option string :=
  r ← strip_prefix "page" s;
  r ← skip_spaces r;
  r ← skip_digits r;
  r ← skip_spaces r;
  r ← strip_prefix "of" r;
  r ← skip_spaces r;
  let d := (Py.span_decimal r).1 in
  if Py.nonempty d then Some d else None.

(** *** The parsed document, as the parser queries it *)

(** An [a] element: [get_text()], the [href] attribute and [.string] (the
    single text child, if that is what the element holds). *)
Record Anchor := mkAnchor {
  a_text : string;
  a_href : option string;
  a_string : option string
}.

(** The first [img] inside [div.inner_thumb]. *)
Record Img := mkImg {
  img_data_src : option string;
  img_src : option string
}.

(** [div.inner_thumb]: the [href] of each [a] inside it, in document order,
    and its first [img]. *)
Record InnerThumb := mkInnerThumb {
  it_hrefs : list (option string);
  it_img : option Img
}.

(** [h2.g_title]: the text of its first [a], and its own text. *)
Record GTitle := mkGTitle {
  gt_a_text : option string;
  gt_text : string
}.

(** [div.caption] *)
Record Caption := mkCaption {
  cap_g_title : option GTitle;
  cap_text : string
}.

(** [div.thumb] *)
Record Thumb := mkThumb {
  th_inner_thumb : option InnerThumb;
  th_caption : option Caption
}.

(** What [_parse_gallery_list] asks of the document BeautifulSoup built:
    the [div.thumb] elements, the [a] elements of the first of
    [div.pagination], [ul.pagination], [div.pager], and the text nodes, all
    in document order. *)
Record Soup := mkSoup {
  soup_thumbs : list Thumb;
  soup_pagination : option (list Anchor);
  soup_strings : list string
}.

Definition base_url : string := "https://hentaifox.com".

(** [self.gallery_pattern.search(url)], group 1. *)
Definition extract_gallery_id (url : string) : option string :=
  re_search (match_literal_digits "hentaifox.com/gallery/") url.

Definition absolute (url : string) : string :=
  if Py.startswith "http" url then url else base_url +:+ url.

(** One round of the loop over the gallery items: the gallery, or [None]
    where the loop continues without one. *)
Definition parse_thumb (item : Thumb) : option GalleryInfo :=
  inner_thumb ← th_inner_thumb item;
  link_href ←
    List.find (fun h => match h with
                        | Some x => (Py.nonempty x && Py.contains "/gallery/" x)%bool
                        | None => false
                        end) (it_hrefs inner_thumb);
  href ← link_href;
  let gallery_url := absolute href in
  gallery_id ← extract_gallery_id gallery_url;
  let title :=
    match th_caption item with
    | Some title_elem =>
        match cap_g_title title_elem with
        | Some title_link =>
            match gt_a_text title_link with
            | Some t => Py.strip t
            | None => Py.strip (gt_text title_link)
            end
        | None => Py.strip (cap_text title_elem)
        end
    | None => "Gallery " +:+ gallery_id
    end in
  let thumbnail_url :=
    match it_img inner_thumb with
    | Some img_elem =>
        let u :=
          match img_data_src img_elem with
          | Some (String c r) => Some (String c r)
          | _ => img_src img_elem
          end in
        match u with
        | Some (String c r) => Some (absolute (String c r))
        | other => other
        end
    | None => None
    end in
  Some (mkGalleryInfo gallery_id title gallery_url [] None None None
          thumbnail_url None).

(** One round of the loop over the page links: the page number appended,
    if any; a [ValueError] from [int] continues the loop. *)
Definition link_page_number (link : Anchor) : option Z :=
  let link_text := Py.strip (a_text link) in
  let href := default "" (a_href link) in
  let attempt : Exc (option Z) :=
    if Py.isdigit link_text then n ← Py.int link_text; Ok (Some n)
    else if Py.contains "page=" href then
      match re_search (match_literal_digits "page=") href with
      | Some g => n ← Py.int g; Ok (Some n)
      | None => Ok None
      end
    else Ok None in
  match attempt with
  | Ok r => r
  | Raise _ => None
  end.

Definition page_numbers (links : list Anchor) : list Z :=
  omap link_page_number links.

(** [pagination.find_all('a', string=...)] for the "Next" fallback. *)
Definition next_links (links : list Anchor) : list Anchor :=
  List.filter
    (fun a => match a_string a with
              | Some text =>
                  (Py.nonempty text
                   && (Py.contains "next" (Py.lower text)
                       || Py.contains ">" text))%bool
              | None => false
              end) links.

(** [max] of a non-empty list. *)
Definition max_list (n : Z) (l : list Z) : Z := fold_left Z.max l n.

(** [total_pages] after the block on the pagination element. *)
Definition pages_from_pagination (soup : Soup) (current_page : Z) : Z :=
  match soup_pagination soup with
  | Some page_links =>
      match page_numbers page_links with
      | n :: l => max_list n l
      | [] =>
          match next_links page_links with
          | _ :: _ => current_page + 1
          | [] => 1
          end
      end
  | None => 1
  end.

(** The text node found for "Page 1 of 25", and the number read from it. *)
Definition page_info (soup : Soup) : option string :=
  List.find (fun text =>
               (Py.nonempty text && Py.contains "page" (Py.lower text)
                && Py.contains "of" (Py.lower text))%bool)
            (soup_strings soup).

Definition pages_from_page_info (soup : Soup) : option Z :=
  info ← page_info soup;
  g ← re_search match_page_of (Py.lower info);
  match Py.int g with
  | Ok n => Some n
  | Raise _ => None
  end.

Definition _parse_gallery_list (soup : Soup) (current_page : Z)
  : SearchResult :=
  let galleries := omap parse_thumb (soup_thumbs soup) in
  let total_pages := pages_from_pagination soup current_page in
  let total_pages :=
    if Z.eqb total_pages 1
    then default total_pages (pages_from_page_info soup)
    else total_pages in
  let total_pages :=
    if (Z.eqb total_pages 1 && Z.leb 20 (Z.of_nat (length galleries)))%bool
    then 10
    else total_pages in
  let has_next := Z.ltb current_page total_pages in
  mkSearchResult galleries
    (Z.of_nat (length galleries) * total_pages)
    current_page total_pages has_next.

(** ** History queries ([core/history.py], continued) *)

(** A [HistoryEntry] as the queries return it: the columns of the row and
    the metadata decoded from its JSON text. *)
Record HistoryItem := mkHistoryItem {
  hi_row : HistoryEntry;
  hi_metadata : option json
}.

(** ORDER BY downloaded_at DESC: rows of equal timestamps stay in rowid
    order, as in [newest]. *)
Fixpoint insert_desc (e : HistoryEntry) (rows : list HistoryEntry)
  : list HistoryEntry :=
  match rows with
  | [] => [e]
  | x :: r =>
      if str_lt (he_downloaded_at e) (he_downloaded_at x)
      then x :: insert_desc e r
      else e :: x :: r
  end.

Definition order_desc (rows : list HistoryEntry) : list HistoryEntry :=
  foldr insert_desc [] rows.

(** LIMIT n: a negative [n] sets no limit. *)
Definition sql_limit {A} (n : Z) (l : list A) : list A :=
  if Z.ltb n 0 then l else take (Z.to_nat n) l.



Section HistoryQueries.

(** [json.loads]; [None] when it raises [JSONDecodeError]. *)
Variable json_loads : string -> option json.

(** The loop that turns the fetched rows into entries. *)
Definition to_item (row : HistoryEntry) : HistoryItem :=
  mkHistoryItem row
    match he_metadata row with
    | Some (String c t) => json_loads (String c t)
    | _ => None
    end.

Definition get_recent_downloads (db : Database) (limit : Z)
  : list HistoryItem :=
  map to_item (sql_limit limit (order_desc (downloads db))).


End HistoryQueries.

(** ** Site helpers ([core/sites/base.py], [core/sites/hentaifox.py]) *)

(** [HentaiFoxSite.is_valid_url] *)
Definition is_valid_url (url : string) : bool :=
  Py.contains "hentaifox.com" (Py.lower url).


(** ** Command-line callers ([cli/commands/download.py]) *)

(** The directory name the progress display of [download_gallery] looks
    for: the chain of [replace] calls on the title. *)
Definition cli_safe_title (title : string) : string :=
  fold_left (fun f char => Py.replace_char char "_" f)
            ["/"; "\"; ":"; "*"; "?"; "034"; "<"; ">"; "|"]%char title.



(** ** Notions used to state the properties *)

(** The shape of the pieces of [re_split_digits]: text without decimal
    digits and non-empty runs of decimal digits in turn, text first and
    last. *)
Fixpoint alternating (digits : bool) (pieces : list string) : bool :=
  match pieces with
  | [] => digits
  | p :: r =>
      ((if digits then Py.nonempty p && Py.all_chars Py.is_decimal p
        else Py.all_chars (fun c => negb (Py.is_decimal c)) p)
       && alternating (negb digits) r)%bool
  end.

(** The shape of a sort key: strings and integers in turn. *)
Fixpoint well_typed (int_next : bool) (key : list key_item) : bool :=
  match key with
  | [] => true
  | KInt _ :: r => (int_next && well_typed false r)%bool
  | KStr _ :: r => (negb int_next && well_typed true r)%bool
  end.


(** What [p.is_file()] answers in a file system. *)
Definition is_file_in (fs : gmap Path node) (p : Path) : bool :=
  match fs !! p with Some File => true | _ => false end.

(** The entries of the directory [dir], listed as [names], that are files
    of a supported format: what [get_image_files] sorts. *)
Definition image_candidates (fs : gmap Path node) (dir : Path)
    (names : list string) : list Path :=
  List.filter (fun p => (is_file_in fs p && is_supported p)%bool)
              (map (path_child dir) names).

(** The error text [download_gallery] reports for an exception. *)
Definition reported_text (e : exception) : string :=
  match exc_class e with
  | TimeoutExpired => "Download timed out"
  | _ => exc_text e
  end.


(** The character that stands for [c] in a sanitized name. *)
Definition sanitize_char (c : ascii) : ascii :=
  if Py.contains_char c invalid_chars then "_"%char else c.

Fixpoint map_chars (f : ascii -> ascii) (s : string) : string :=
  match s with
  | EmptyString => EmptyString
  | String c r => String (f c) (map_chars f r)
  end.

(** [d.get(k)] on a dict kept as a list of entries. *)
Fixpoint dict_get (k : string) (d : list (string * json)) : option json :=
  match d with
  | [] => None
  | (k', v) :: r => if String.eqb k' k then Some v else dict_get k r
  end.

(** ** Fixtures for the examples *)

(** A gallery directory holding the regular files [names], in that order. *)
Definition gallery_dir : Path := mkPath "/" ["Downloads"; "HFox"; "gallery"].

Definition gallery_world (names : list string) : world :=
  mkWorld
    (list_to_map ((gallery_dir, Dir names)
                  :: map (fun n => (path_child gallery_dir n, File)) names))
    [] [].

(** Back ends in which every call fails: no image decodes, no archive
    opens. *)
Definition unavailable {A} : Exc A := Raise (mkExc OSError "unavailable").

Definition failing_backend : Backend :=
  mkBackend (fun _ => unavailable) (fun _ => unavailable)
    (fun _ _ _ => unavailable) (fun h _ _ => h)
    (fun _ _ _ => unavailable) (fun _ _ _ => unavailable)
    (fun _ _ => unavailable) (fun _ _ _ => unavailable)
    (fun _ => mkPath "/" ["tmp"; "tmp.jpg"]).


(** The defaults of [config/defaults.py]. *)
Definition default_conversion : ConversionConfig :=
  mkConversionConfig 2048 100 6 false 100 1920.

(** A job whose gallery-dl process runs into the timeout, one whose process
    exits with status 0 after printing [out], and sample settings. *)
Definition timeout_env : JobEnv :=
  mkJobEnv (fun _ => Ok "/tmp/cfg.json")
    (fun _ _ => Raise (mkExc TimeoutExpired "timed out after 3600 seconds"))
    (fun _ => Ok ()).

Definition exit0_env (out : string) : JobEnv :=
  mkJobEnv (fun _ => Ok "/tmp/cfg.json")
    (fun _ _ => Ok (mkCompletedProcess 0 out ""))
    (fun _ => Ok ()).

Definition posix_like : PathFlavour :=
  mkPathFlavour
    (fun s => mkPath "" (Py.split_char "/" s))
    (fun p => anchor p +:+ foldr (fun a b => a +:+ "/" +:+ b) "" (parts p)).

Definition sample_config : DownloadConfig := mkDownloadConfig "INFO" true.



(** * Properties *)

(** ** History store *)

Section HistoryFacts.

Variable json_dumps : json -> string.

Lemma count_key_app rows r seq seq' gallery_id site :
  count_key (mkDatabase (rows ++ [r]) seq) gallery_id site
  = (count_key (mkDatabase rows seq') gallery_id site
     + if key_matches gallery_id site r then 1 else 0)%nat.
Proof.
  unfold count_key; simpl. rewrite filter_app, length_app. f_equal.
  rewrite filter_cons, filter_nil.
  destruct (key_matches gallery_id site r); case_decide; simpl; congruence.
Qed.

Lemma key_matches_spec gallery_id site e :
  key_matches gallery_id site e = true
  <-> he_gallery_id e = gallery_id /\ he_site e = site.
Proof.
  unfold key_matches. rewrite andb_true_iff, !String.eqb_eq. tauto.
Qed.

Lemma is_downloaded_count db gallery_id site :
  is_downloaded db gallery_id site = true
  <-> (0 < count_key db gallery_id site)%nat.
Proof. unfold is_downloaded. apply Nat.ltb_lt. Qed.

Lemma newest_elem rows e : newest rows = Some e -> e ∈ rows.
Proof.
  revert e. induction rows as [|x rows IH]; intros e; simpl; [discriminate|].
  destruct (newest rows) as [e'|].
  - destruct (str_lt _ _); intros [= <-].
    + right. now apply IH.
    + left.
  - intros [= <-]. left.
Qed.

Lemma newest_some rows : rows <> [] -> is_Some (newest rows).
Proof.
  destruct rows as [|x rows]; [congruence|]. intros _. simpl.
  destruct (newest rows); [destruct (str_lt _ _)|]; eauto.
Qed.

(** A key that is present: the call answers with the id of a stored row of
    that key and leaves the store as it was. *)
Lemma add_download_existing db gi path n site now :
  is_downloaded db (gi_id gi) site = true ->
  exists e, e ∈ downloads db /\ he_gallery_id e = gi_id gi /\ he_site e = site
            /\ add_download json_dumps db gi path n site now
               = (Some (he_id e), db).
Proof.
  intros Hd. unfold add_download. rewrite Hd.
  unfold get_download_id.
  set (rows := filter _ (downloads db)).
  assert (Hne : rows <> []).
  { apply is_downloaded_count in Hd. unfold count_key in Hd. fold rows in Hd.
    intros E. rewrite E in Hd. simpl in Hd. lia. }
  destruct (newest_some rows Hne) as [e He].
  exists e. apply newest_elem in He as Hin. rewrite He. simpl.
  apply list_elem_of_filter in Hin as [Hk Hin].
  apply key_matches_spec in Hk as [? ?]. auto.
Qed.

(** A key that is absent: the call inserts one row of that key. *)
Lemma add_download_fresh db gi path n site now :
  is_downloaded db (gi_id gi) site = false ->
  exists e, add_download json_dumps db gi path n site now
            = (Some (he_id e), mkDatabase (downloads db ++ [e]) (he_id e))
            /\ he_gallery_id e = gi_id gi /\ he_site e = site
            /\ he_files_count e = n.
Proof.
  intros Hd. unfold add_download. rewrite Hd.
  eexists (mkHistoryEntry (next_rowid db) _ _ _ _ _ _ _ _).
  split; [reflexivity|]. simpl. auto.
Qed.

Lemma add_download_count db gi path n site now gallery_id s :
  count_key (snd (add_download json_dumps db gi path n site now)) gallery_id s
  = if is_downloaded db (gi_id gi) site then count_key db gallery_id s
    else (count_key db gallery_id s
          + if (String.eqb (gi_id gi) gallery_id && String.eqb site s)%bool
            then 1 else 0)%nat.
Proof.
  unfold add_download. destruct (is_downloaded db (gi_id gi) site); [reflexivity|].
  simpl. rewrite (count_key_app _ _ _ (sqlite_sequence db)).
  destruct db; reflexivity.
Qed.

Lemma count_key_filter (P : HistoryEntry -> Prop) `{!forall e, Decision (P e)}
    rows seq seq' gallery_id site :
  (count_key (mkDatabase (filter P rows) seq) gallery_id site
   <= count_key (mkDatabase rows seq') gallery_id site)%nat.
Proof.
  unfold count_key; simpl. induction rows as [|x rows IH]; [reflexivity|].
  rewrite !filter_cons. repeat (case_decide; simpl; rewrite ?filter_cons);
    repeat case_decide; simpl; try lia; tauto.
Qed.

(** Every store the program can build holds at most one row per key. *)
Lemma reachable_count_key db gallery_id site :
  reachable json_dumps db -> (count_key db gallery_id site <= 1)%nat.
Proof.
  induction 1 as [|db gi path n s now _ IH|db m _ IH|db _ IH].
  - unfold count_key; simpl. lia.
  - rewrite add_download_count.
    destruct (is_downloaded db (gi_id gi) s) eqn:Hd; [exact IH|].
    destruct (String.eqb (gi_id gi) gallery_id && String.eqb s site)%bool eqn:E;
      [|lia].
    apply andb_true_iff in E as [E1 E2].
    apply String.eqb_eq in E1, E2. subst gallery_id site.
    assert (~ (0 < count_key db (gi_id gi) s)%nat).
    { rewrite <- is_downloaded_count. congruence. }
    lia.
  - unfold cleanup_old_entries. destruct (Z.ltb _ _); [|exact IH].
    etransitivity; [|exact IH]. destruct db. apply count_key_filter.
  - unfold count_key; simpl. lia.
Qed.

(** C1. Idempotent history insert: when a row for the key
    [(gallery_info.id, site)] is stored, [add_download] returns the id of a
    stored row of that key and inserts nothing; and two calls in sequence
    with the same key, on a store holding at most one row of it (as every
    store built by the program does), return the same id and leave exactly
    one row for the key. *)
Theorem add_download_idempotent :
  (forall db gi path n site now,
      is_downloaded db (gi_id gi) site = true ->
      exists e, e ∈ downloads db /\ he_gallery_id e = gi_id gi
                /\ he_site e = site
                /\ add_download json_dumps db gi path n site now
                   = (Some (he_id e), db))
  /\
  (forall db gi1 gi2 path1 path2 n1 n2 site now1 now2,
      gi_id gi2 = gi_id gi1 ->
      (count_key db (gi_id gi1) site <= 1)%nat ->
      let r1 := add_download json_dumps db gi1 path1 n1 site now1 in
      let r2 := add_download json_dumps (snd r1) gi2 path2 n2 site now2 in
      is_Some (fst r1) /\ fst r2 = fst r1 /\ snd r2 = snd r1
      /\ count_key (snd r2) (gi_id gi1) site = 1%nat).
Proof.
  split; [apply add_download_existing|].
  intros db gi1 gi2 path1 path2 n1 n2 site now1 now2 Hid Hc r1 r2.
  assert (Hc1 : count_key (snd r1) (gi_id gi1) site = 1%nat).
  { subst r1. rewrite add_download_count.
    destruct (is_downloaded db (gi_id gi1) site) eqn:Hd.
    - apply is_downloaded_count in Hd. lia.
    - assert (~ (0 < count_key db (gi_id gi1) site)%nat).
      { rewrite <- is_downloaded_count. congruence. }
      rewrite !String.eqb_refl. simpl. lia. }
  assert (Hd2 : is_downloaded (snd r1) (gi_id gi2) site = true).
  { rewrite Hid. apply is_downloaded_count. lia. }
  destruct (add_download_existing (snd r1) gi2 path2 n2 site now2 Hd2)
    as (e2 & Hin2 & Hg2 & Hs2 & E2).
  fold r2 in E2.
  assert (Hr1 : exists e1, fst r1 = Some (he_id e1) /\ e1 ∈ downloads (snd r1)
                           /\ he_gallery_id e1 = gi_id gi1 /\ he_site e1 = site).
  { subst r1. destruct (is_downloaded db (gi_id gi1) site) eqn:Hd.
    - destruct (add_download_existing db gi1 path1 n1 site now1 Hd)
        as (e & ? & ? & ? & E). rewrite E. simpl. eauto.
    - destruct (add_download_fresh db gi1 path1 n1 site now1 Hd)
        as (e & E & ? & ? & ?). rewrite E. simpl.
      exists e. repeat split; auto. apply elem_of_app. right. left. }
  destruct Hr1 as (e1 & E1 & Hin1 & Hg1 & Hs1).
  rewrite E2. simpl. rewrite E1. repeat split; eauto.
  - f_equal. f_equal.
    (* one row of the key: both calls found the same one *)
    unfold count_key in Hc1.
    assert (H1 : e1 ∈ filter (fun e => key_matches (gi_id gi1) site e = true)
                   (downloads (snd r1))).
    { apply list_elem_of_filter. split; [|exact Hin1].
      apply key_matches_spec. auto. }
    assert (H2 : e2 ∈ filter (fun e => key_matches (gi_id gi1) site e = true)
                   (downloads (snd r1))).
    { apply list_elem_of_filter. split; [|exact Hin2].
      apply key_matches_spec. split; congruence. }
    destruct (filter _ (downloads (snd r1))) as [|x [|y l]]; simpl in Hc1;
      try lia.
    apply list_elem_of_singleton in H1, H2. congruence.
Qed.

Lemma sql_sum_or_zero (l : list Z) :
  match sql_sum l with
  | Some n => if Z.eqb n 0 then 0 else n
  | None => 0
  end = foldr Z.add 0 l.
Proof.
  destruct l as [|x l]; [reflexivity|]. unfold sql_sum.
  destruct (Z.eqb_spec (foldr Z.add 0 (x :: l)) 0); congruence.
Qed.

Lemma get_stats_totals db week_ago :
  total_downloads (get_stats db week_ago) = Z.of_nat (length (downloads db))
  /\ total_files (get_stats db week_ago)
     = foldr Z.add 0 (map he_files_count (downloads db)).
Proof. split; [reflexivity|]. apply sql_sum_or_zero. Qed.

Lemma is_downloaded_absent db gallery_id site :
  (forall e, e ∈ downloads db -> he_gallery_id e <> gallery_id) ->
  is_downloaded db gallery_id site = false.
Proof.
  intros H. unfold is_downloaded, count_key.
  destruct (filter _ (downloads db)) as [|e l] eqn:E; [reflexivity|].
  assert (He : e ∈ e :: l) by left. rewrite <- E in He.
  apply list_elem_of_filter in He as [Hk He].
  apply key_matches_spec in Hk as [Hk _]. destruct (H e He Hk).
Qed.

(** C7. Stats consistency: [get_stats] reports the number of stored rows
    and the sum of their [files_count], which is 0 for the empty store; and
    after recording three galleries of distinct ids with 3, 5 and 0 files
    in a new store it reports 8 files in 3 downloads. *)
Theorem get_stats_consistent :
  (forall db week_ago,
      total_downloads (get_stats db week_ago)
      = Z.of_nat (length (downloads db))
      /\ total_files (get_stats db week_ago)
         = foldr Z.add 0 (map he_files_count (downloads db)))
  /\ (forall db week_ago,
         downloads db = [] -> total_files (get_stats db week_ago) = 0)
  /\ (forall g1 g2 g3 p1 p2 p3 s1 s2 s3 t1 t2 t3 week_ago,
         gi_id g1 <> gi_id g2 -> gi_id g1 <> gi_id g3 -> gi_id g2 <> gi_id g3 ->
         let db1 := snd (add_download json_dumps empty_database g1 p1 3 s1 t1) in
         let db2 := snd (add_download json_dumps db1 g2 p2 5 s2 t2) in
         let db3 := snd (add_download json_dumps db2 g3 p3 0 s3 t3) in
         total_files (get_stats db3 week_ago) = 8
         /\ total_downloads (get_stats db3 week_ago) = 3).
Proof.
  split; [apply get_stats_totals|]. split.
  - intros db w E. rewrite (proj2 (get_stats_totals db w)), E. reflexivity.
  - intros g1 g2 g3 p1 p2 p3 s1 s2 s3 t1 t2 t3 w H12 H13 H23 db1 db2 db3.
    assert (E1 : exists e1, db1 = mkDatabase [e1] (he_id e1)
                            /\ he_gallery_id e1 = gi_id g1
                            /\ he_files_count e1 = 3).
    { destruct (add_download_fresh empty_database g1 p1 3 s1 t1 eq_refl)
        as (e & E & ? & ? & ?). subst db1. rewrite E. simpl. eauto. }
    destruct E1 as (e1 & E1 & G1 & F1).
    assert (E2 : exists e2, db2 = mkDatabase [e1; e2] (he_id e2)
                            /\ he_gallery_id e2 = gi_id g2
                            /\ he_files_count e2 = 5).
    { assert (Hd : is_downloaded db1 (gi_id g2) s2 = false).
      { apply is_downloaded_absent. rewrite E1. simpl. intros e He.
        apply list_elem_of_singleton in He. congruence. }
      destruct (add_download_fresh db1 g2 p2 5 s2 t2 Hd) as (e & E & ? & ? & ?).
      subst db2. rewrite E, E1. simpl. eauto. }
    destruct E2 as (e2 & E2 & G2 & F2).
    assert (E3 : exists e3, db3 = mkDatabase [e1; e2; e3] (he_id e3)
                            /\ he_files_count e3 = 0).
    { assert (Hd : is_downloaded db2 (gi_id g3) s3 = false).
      { apply is_downloaded_absent. rewrite E2. simpl. intros e He.
        apply elem_of_cons in He as [->|He]; [congruence|].
        apply list_elem_of_singleton in He. congruence. }
      destruct (add_download_fresh db2 g3 p3 0 s3 t3 Hd) as (e & E & ? & ? & ?).
      subst db3. rewrite E, E2. simpl. eauto. }
    destruct E3 as (e3 & E3 & F3).
    destruct (get_stats_totals db3 w) as [-> ->]. rewrite E3. simpl.
    rewrite F1, F2, F3. split; reflexivity.
Qed.

End HistoryFacts.

(** C1, at the record of Scenario A: gallery 147838 of site hentaifox,
    recorded twice into an empty store. *)
Lemma add_download_idempotent_witness :
  let g := mkGalleryInfo "147838" "t" "u" [] None None None None None in
  let r1 := add_download (fun _ => EmptyString) empty_database g "p" 49 "hentaifox" "2024-01-01T00:00:00" in
  let r2 := add_download (fun _ => EmptyString) (snd r1) g "p" 49 "hentaifox" "2024-01-02T00:00:00" in
  is_Some (fst r1) /\ fst r2 = fst r1 /\ snd r2 = snd r1
  /\ count_key (snd r2) "147838" "hentaifox" = 1%nat.
Proof.
  intros g.
  apply (proj2 (add_download_idempotent (fun _ => EmptyString)) empty_database g g "p" "p" 49 49
           "hentaifox" "2024-01-01T00:00:00" "2024-01-02T00:00:00").
  - reflexivity.
  - vm_compute. lia.
Defined.


(** C7, at three galleries with ids 1, 2 and 3. *)
Lemma get_stats_consistent_witness :
  let g i := mkGalleryInfo i "t" "u" [] None None None None None in
  let add db i n := snd (add_download (fun _ => EmptyString) db (g i) "p" n "hentaifox" "2024-01-01T00:00:00") in
  let db3 := add (add (add empty_database "1" 3) "2" 5) "3" 0 in
  total_files (get_stats db3 "2023-12-25 00:00:00") = 8
  /\ total_downloads (get_stats db3 "2023-12-25 00:00:00") = 3.
Proof.
  intros g add db3.
  apply (proj2 (proj2 (get_stats_consistent (fun _ => EmptyString)))
           (g "1") (g "2") (g "3")); simpl; congruence.
Defined.

(** ** File names derived from titles *)

Section StringFacts.

Lemma length_append (s t : string) :
  String.length (s +:+ t) = (String.length s + String.length t)%nat.
Proof. induction s as [|c s IH]; simpl; [reflexivity|]. now rewrite IH. Qed.

Lemma all_chars_append p (s t : string) :
  Py.all_chars p (s +:+ t) = (Py.all_chars p s && Py.all_chars p t)%bool.
Proof.
  induction s as [|c s IH]; simpl; [reflexivity|].
  now rewrite IH, andb_assoc.
Qed.

Lemma length_take n s : (String.length (Py.take n s) <= n)%nat.
Proof.
  revert s. induction n as [|n IH]; intros [|c s]; simpl; try lia.
  specialize (IH s). lia.
Qed.

Lemma all_chars_take p n s :
  Py.all_chars p s = true -> Py.all_chars p (Py.take n s) = true.
Proof.
  revert s. induction n as [|n IH]; intros [|c s]; simpl; try reflexivity.
  rewrite !andb_true_iff. intros [? ?]. auto.
Qed.

Lemma length_lstrip s : (String.length (Py.lstrip s) <= String.length s)%nat.
Proof.
  induction s as [|c s IH]; simpl; [lia|].
  destruct (Py.isspace_char c); simpl; lia.
Qed.

Lemma all_chars_lstrip p s :
  Py.all_chars p s = true -> Py.all_chars p (Py.lstrip s) = true.
Proof.
  induction s as [|c s IH]; simpl; [reflexivity|].
  destruct (Py.isspace_char c); simpl; [|tauto].
  rewrite andb_true_iff. intros [_ ?]. auto.
Qed.

Lemma length_rstrip s : (String.length (Py.rstrip s) <= String.length s)%nat.
Proof.
  induction s as [|c s IH]; simpl; [lia|].
  destruct (Py.rstrip s); [destruct (Py.isspace_char c)|]; simpl in *; lia.
Qed.

Lemma all_chars_rstrip p s :
  Py.all_chars p s = true -> Py.all_chars p (Py.rstrip s) = true.
Proof.
  induction s as [|c s IH]; simpl; [reflexivity|].
  rewrite andb_true_iff. intros [Hc Hs]. specialize (IH Hs).
  destruct (Py.rstrip s); [destruct (Py.isspace_char c)|]; simpl in *;
    rewrite ?Hc; auto.
Qed.

Lemma length_strip s : (String.length (Py.strip s) <= String.length s)%nat.
Proof.
  unfold Py.strip. etransitivity; [apply length_rstrip|apply length_lstrip].
Qed.

Lemma all_chars_strip p s :
  Py.all_chars p s = true -> Py.all_chars p (Py.strip s) = true.
Proof. intros H. apply all_chars_rstrip, all_chars_lstrip, H. Qed.

Lemma length_replace_char old new s :
  String.length (Py.replace_char old new s) = String.length s.
Proof. induction s as [|c s IH]; simpl; congruence. Qed.

(** [absent c s]: the character [c] does not occur in [s]. *)
Lemma absent_replaced old new s :
  old <> new ->
  Py.all_chars (fun d => negb (Ascii.eqb d old)) (Py.replace_char old new s)
  = true.
Proof.
  intros Hne. induction s as [|c s IH]; simpl; [reflexivity|].
  rewrite IH, andb_true_r.
  destruct (Ascii.eqb_spec c old) as [->|Hc].
  - apply negb_true_iff, Ascii.eqb_neq. congruence.
  - apply negb_true_iff, Ascii.eqb_neq. exact Hc.
Qed.

Lemma absent_kept d old new s :
  d <> new ->
  Py.all_chars (fun x => negb (Ascii.eqb x d)) s = true ->
  Py.all_chars (fun x => negb (Ascii.eqb x d)) (Py.replace_char old new s)
  = true.
Proof.
  intros Hne. induction s as [|c s IH]; simpl; [reflexivity|].
  rewrite !andb_true_iff. intros [Hc Hs]. split; [|auto].
  destruct (Ascii.eqb c old); [|exact Hc].
  apply negb_true_iff, Ascii.eqb_neq. congruence.
Qed.

(** Replacing the characters of [chars] one after the other leaves none of
    them, as long as the placeholder is not one of them. *)
Lemma replace_all_absent (new : ascii) (chars done : list ascii) s :
  Forall (fun d => d <> new) (done ++ chars) ->
  Forall (fun d => Py.all_chars (fun x => negb (Ascii.eqb x d)) s = true) done ->
  Forall (fun d =>
            Py.all_chars (fun x => negb (Ascii.eqb x d))
              (fold_left (fun f char => Py.replace_char char new f) chars s)
            = true) (done ++ chars).
Proof.
  revert done s. induction chars as [|ch chars IH]; intros done s Hne Hdone.
  - rewrite app_nil_r. exact Hdone.
  - simpl. replace (done ++ ch :: chars) with ((done ++ [ch]) ++ chars) in *
      by (rewrite <- app_assoc; reflexivity).
    apply IH; [exact Hne|].
    apply Forall_app in Hne as [Hne _]. apply Forall_app in Hne as [Hd Hc].
    apply Forall_app. split.
    + rewrite Forall_forall in *. intros d Hin.
      apply absent_kept; auto.
    + constructor; [|constructor]. apply absent_replaced.
      now inversion Hc.
Qed.

Lemma replace_char_map old new s :
  Py.replace_char old new s
  = map_chars (fun c => if Ascii.eqb c old then new else c) s.
Proof. induction s as [|c s IH]; simpl; congruence. Qed.

Lemma map_chars_compose f g s :
  map_chars g (map_chars f s) = map_chars (fun c => g (f c)) s.
Proof. induction s as [|c s IH]; simpl; congruence. Qed.

Lemma map_chars_ext f g s :
  (forall c, f c = g c) -> map_chars f s = map_chars g s.
Proof. intros H. induction s as [|c s IH]; simpl; congruence. Qed.

(** The nine replacements of [_sanitize_filename], done one after the
    other, amount to one pass that puts "_" for every invalid character. *)
Lemma replace_all_map filename :
  fold_left (fun f char => Py.replace_char char "_" f)
            (list_ascii_of_string invalid_chars) filename
  = map_chars sanitize_char filename.
Proof.
  change (list_ascii_of_string invalid_chars)
    with ["<"; ">"; ":"; "034"; "/"; "\"; "|"; "?"; "*"]%char.
  cbn [fold_left].
  rewrite !replace_char_map, !map_chars_compose.
  apply map_chars_ext.
  intros [[] [] [] [] [] [] [] []]; reflexivity.
Qed.

End StringFacts.

(** C8, as stated, fails: a title of 201 letters is cut to 200 characters
    and "..." is appended, a name of 203 characters. *)
Lemma sanitize_filename_exceeds_cap :
  let title := string_of_list_ascii (repeat "a"%char 201) in
  ~ (String.length (_sanitize_filename title) <= 200)%nat.
Proof. vm_compute. lia. Qed.

(** C8, amended. Filename sanitization: the name [_sanitize_filename]
    returns holds none of the characters of [invalid_chars], each of which
    has been replaced by the placeholder "_", and its length is capped: a
    name longer than 200 characters is cut to its first 200 characters
    followed by "...", so no sanitized name is longer than 203 characters. *)
Theorem sanitize_filename_clean_and_capped (filename : string) :
  Forall (fun c => Py.contains_char c (_sanitize_filename filename) = false)
         (list_ascii_of_string invalid_chars)
  /\ _sanitize_filename filename
     = Py.strip (let replaced := map_chars sanitize_char filename in
                 if Nat.ltb 200 (String.length replaced)
                 then Py.take 200 replaced +:+ "..." else replaced)
  /\ (String.length (_sanitize_filename filename) <= 203)%nat.
Proof.
  unfold _sanitize_filename.
  set (replaced := fold_left _ _ filename).
  assert (Hclean :
    Forall (fun d => Py.all_chars (fun x => negb (Ascii.eqb x d)) replaced = true)
           (list_ascii_of_string invalid_chars)).
  { apply (replace_all_absent "_" (list_ascii_of_string invalid_chars) []).
    - simpl. repeat constructor; discriminate.
    - constructor. }
  split; [|split].
  - rewrite Forall_forall in *. intros c Hc. specialize (Hclean c Hc).
    unfold Py.contains_char. apply negb_false_iff, all_chars_strip.
    destruct (Nat.ltb 200 (String.length replaced)); [|exact Hclean].
    assert (Hdot : negb (Ascii.eqb "." c) = true).
    { apply negb_true_iff, Ascii.eqb_neq. intros <-.
      apply list_elem_of_In in Hc. simpl in Hc. intuition discriminate. }
    rewrite all_chars_append, all_chars_take by exact Hclean.
    cbn [Py.all_chars andb]. now rewrite Hdot.
  - subst replaced. now rewrite replace_all_map.
  - etransitivity; [apply length_strip|].
    destruct (Nat.ltb_spec 200 (String.length replaced)); [|lia].
    rewrite length_append. change (String.length "...") with 3%nat.
    pose proof (length_take 200 replaced). lia.
Qed.

(** ** Natural sort keys *)

Section NaturalSortKeys.

Lemma re_split_digits_alternating text :
  alternating false (re_split_digits text) = true.
Proof.
  induction text as [|c r IH]; [reflexivity|].
  cbn [re_split_digits]. destruct (Py.is_decimal c) eqn:Hc.
  - destruct (re_split_digits r) as [|[|a t] [|d rest]];
      cbn [alternating Py.all_chars Py.nonempty negb andb] in *;
      rewrite ?Hc; cbn [negb andb]; try exact IH; try discriminate.
    apply andb_true_iff in IH as [H1 H2].
    apply andb_true_iff in H1 as [_ H1]. now rewrite H1, H2.
  - destruct (re_split_digits r) as [|t rest]; [discriminate|].
    cbn [alternating Py.all_chars negb] in *. now rewrite Hc.
Qed.

Lemma append_cons c (s t : string) : String c s +:+ t = String c (s +:+ t).
Proof. reflexivity. Qed.

Lemma append_nil_l (s : string) : "" +:+ s = s.
Proof. reflexivity. Qed.


Lemma decimal_isdigit s :
  Py.all_chars Py.is_decimal s = true -> Py.all_chars Py.isdigit_char s = true.
Proof.
  induction s as [|c s IH]; [reflexivity|]. simpl.
  rewrite !andb_true_iff. intros [Hc Hs]. split; [|auto].
  unfold Py.isdigit_char. now rewrite Hc.
Qed.

Lemma key_of_piece_digits p :
  Py.nonempty p = true -> Py.all_chars Py.is_decimal p = true ->
  exists n, key_of_piece p = Ok (KInt n).
Proof.
  intros Hn Hd. unfold key_of_piece, Py.isdigit, Py.int.
  destruct p as [|c p]; [discriminate|].
  rewrite (decimal_isdigit _ Hd), Hd. simpl. eauto.
Qed.

Lemma key_of_piece_text p item :
  Py.all_chars (fun c => negb (Py.is_decimal c)) p = true ->
  key_of_piece p = Ok item -> exists s, item = KStr s.
Proof.
  intros Hp. unfold key_of_piece. destruct (Py.isdigit p) eqn:Hd.
  - unfold Py.int. destruct p as [|c p]; [discriminate|].
    simpl in Hp. apply andb_true_iff in Hp as [Hc _].
    apply negb_true_iff in Hc. cbn [Py.all_chars]. rewrite Hc. discriminate.
  - intros [= <-]. eauto.
Qed.

Lemma exc_map_cons {A B} (f : A -> Exc B) x l r :
  exc_map f (x :: l) = Ok r ->
  exists y ys, r = y :: ys /\ f x = Ok y /\ exc_map f l = Ok ys.
Proof.
  simpl. destruct (f x) as [y|e]; [|discriminate]. simpl.
  destruct (exc_map f l) as [ys|e]; [|discriminate]. simpl.
  intros [= <-]. eauto.
Qed.

Lemma keys_well_typed pieces : forall digits key,
  alternating digits pieces = true ->
  exc_map key_of_piece pieces = Ok key ->
  well_typed digits key = true.
Proof.
  induction pieces as [|p r IH]; intros digits key Ha Hk.
  - injection Hk as <-. reflexivity.
  - apply exc_map_cons in Hk as (y & ys & -> & Hy & Hys).
    simpl in Ha. apply andb_true_iff in Ha as [Hp Hr].
    specialize (IH _ _ Hr Hys). destruct digits.
    + apply andb_true_iff in Hp as [Hn Hd].
      destruct (key_of_piece_digits p Hn Hd) as [n E].
      rewrite E in Hy. injection Hy as <-. simpl. exact IH.
    + destruct (key_of_piece_text p y Hp Hy) as [s ->]. simpl. exact IH.
Qed.

(** A key that is computed holds strings at the even positions and
    integers at the odd ones. *)
Lemma natural_sort_key_well_typed text key :
  _natural_sort_key text = Ok key -> well_typed false key = true.
Proof.
  apply keys_well_typed, re_split_digits_alternating.
Qed.

Lemma list_lt_defined k1 : forall k2 b,
  well_typed b k1 = true -> well_typed b k2 = true ->
  exists r, list_lt k1 k2 = Ok r.
Proof.
  induction k1 as [|x k1 IH]; intros [|y k2] b H1 H2; simpl; eauto.
  destruct x, y, b; simpl in *; try discriminate;
    match goal with |- context [if ?c then _ else _] => destruct c end;
    eauto.
Qed.

(** Two computed keys are always comparable: [<] never meets an integer
    and a string at the same position. *)
Lemma natural_keys_comparable a b ka kb :
  _natural_sort_key a = Ok ka -> _natural_sort_key b = Ok kb ->
  exists r, list_lt ka kb = Ok r.
Proof.
  intros Ha Hb.
  eapply list_lt_defined; eapply natural_sort_key_well_typed; eauto.
Qed.

Lemma str_lt_asym s t : str_lt s t = true -> str_lt t s = false.
Proof.
  unfold str_lt. rewrite (String.compare_antisym t s).
  destruct (String.compare s t); simpl; congruence.
Qed.



End NaturalSortKeys.

(** ** [sorted] *)

Section SortedFacts.

Context {A K : Type} (lt : K -> K -> Exc bool) (good : K -> Prop).

(** Keys of the kind [good] can be compared, and [<] is asymmetric. *)
Hypothesis lt_defined :
  forall k1 k2, good k1 -> good k2 -> exists b, lt k1 k2 = Ok b.
Hypothesis lt_asym :
  forall k1 k2, lt k1 k2 = Ok true -> lt k2 k1 = Ok false.






End SortedFacts.

(** ** Archive converter *)

Section ConverterFacts.

Lemma bind_run {A B} (m : M A) (k : A -> M B) w :
  (m ≫= k) w
  = match m w with
    | (Ok a, w') => k a w'
    | (Raise e, w') => (Raise e, w')
    end.
Proof. reflexivity. Qed.

Lemma path_exists_run p w :
  path_exists p w
  = (Ok (bool_decide (is_Some (w_fs w !! p))),
     mkWorld (w_fs w) (w_log w ++ [FsExists p]) (w_console w)).
Proof. reflexivity. Qed.

Lemma path_is_file_run p w :
  path_is_file p w
  = (Ok (is_file_in (w_fs w) p),
     mkWorld (w_fs w) (w_log w ++ [FsIsFile p]) (w_console w)).
Proof. reflexivity. Qed.

Lemma path_iterdir_dir p names w :
  w_fs w !! p = Some (Dir names) ->
  path_iterdir p w
  = (Ok (map (path_child p) names),
     mkWorld (w_fs w) (w_log w ++ [FsIterdir p]) (w_console w)).
Proof.
  intros Hd. unfold path_iterdir, log_op, lookup_node. rewrite !bind_run.
  cbn [w_fs]. now rewrite Hd.
Qed.

Lemma filterM_is_file entries w :
  filterM (fun file_path =>
             f ← path_is_file file_path;
             mret (f && is_supported file_path)%bool) entries w
  = (Ok (List.filter (fun p => (is_file_in (w_fs w) p && is_supported p)%bool)
           entries),
     mkWorld (w_fs w) (w_log w ++ map FsIsFile entries) (w_console w)).
Proof.
  revert w. induction entries as [|p r IH]; intros w.
  - simpl. rewrite app_nil_r. now destruct w.
  - cbn [filterM]. rewrite bind_run, bind_run, path_is_file_run.
    unfold mret at 1, M_ret at 1. rewrite bind_run, IH.
    cbn [w_fs w_log w_console List.filter map]. rewrite <- app_assoc.
    reflexivity.
Qed.

(** A directory that exists: its candidates are sorted, after one
    [exists], one [iterdir] and one [is_file] per entry. *)
Lemma get_image_files_dir w directory names :
  w_fs w !! directory = Some (Dir names) ->
  get_image_files directory w
  = (sorted list_lt (fun x => _natural_sort_key (path_name x))
       (image_candidates (w_fs w) directory names),
     mkWorld (w_fs w)
       (w_log w ++ [FsExists directory; FsIterdir directory]
        ++ map FsIsFile (map (path_child directory) names))
       (w_console w)).
Proof.
  intros Hd. unfold get_image_files.
  rewrite bind_run, path_exists_run, Hd, bool_decide_true by eauto.
  cbn [negb]. rewrite bind_run, (path_iterdir_dir _ names) by exact Hd.
  rewrite bind_run, filterM_is_file. unfold lift_exc, image_candidates.
  cbn [w_fs w_log w_console]. rewrite <- !app_assoc. reflexivity.
Qed.

(** A directory that does not exist: no images, after one [exists]. *)
Lemma get_image_files_absent w directory :
  w_fs w !! directory = None ->
  get_image_files directory w
  = (Ok [], mkWorld (w_fs w) (w_log w ++ [FsExists directory]) (w_console w)).
Proof.
  intros Hd. unfold get_image_files.
  rewrite bind_run, path_exists_run, Hd, bool_decide_false; [reflexivity|].
  intros [? ?]; discriminate.
Qed.



(** The three files of the design document come back as img1, img2,
    img10. *)
Lemma get_image_files_img_example :
  fst (get_image_files gallery_dir
         (gallery_world ["img10.png"; "img2.png"; "img1.png"]))
  = Ok (map (path_child gallery_dir) ["img1.png"; "img2.png"; "img10.png"]).
Proof. vm_compute. reflexivity. Qed.

Variable be : Backend.
Variable cfg : ConversionConfig.

Lemma convert_to_pdf_empty w source_dir output_path delete_source quality w' :
  get_image_files source_dir w = (Ok [], w') ->
  convert_to_pdf be cfg source_dir output_path delete_source quality w
  = (Ok (failed 0 "No image files found in directory"), w').
Proof.
  intros H. unfold convert_to_pdf, try_except. now rewrite bind_run, H.
Qed.

Lemma convert_to_cbz_empty w source_dir output_path delete_source quality w' :
  get_image_files source_dir w = (Ok [], w') ->
  convert_to_cbz be cfg source_dir output_path delete_source quality w
  = (Ok (failed 0 "No image files found in directory"), w').
Proof.
  intros H. unfold convert_to_cbz, try_except. now rewrite bind_run, H.
Qed.

(** C5. No-images failure: on a directory that does not exist, or whose
    entries include no regular file of a supported format,
    [convert_gallery] with format pdf or cbz (in any letter case) returns a
    result with [success = False], [input_files_count = 0],
    [output_path = None] and a non-empty error message. *)
Theorem convert_gallery_no_images w source_dir format_type output_path
    delete_source quality :
  Py.lower format_type = "pdf" \/ Py.lower format_type = "cbz" ->
  w_fs w !! source_dir = None
  \/ (exists names,
        w_fs w !! source_dir = Some (Dir names)
        /\ Forall (fun n =>
                     (is_file_in (w_fs w) (path_child source_dir n)
                      && is_supported (path_child source_dir n))%bool = false)
                  names) ->
  exists message,
    fst (convert_gallery be cfg source_dir format_type output_path
           delete_source quality w)
    = Ok (mkConversionResult false None 0 (Some message))
    /\ message <> "".
Proof.
  intros Hf Hdir.
  assert (Hnone : exists w', get_image_files source_dir w = (Ok [], w')).
  { destruct Hdir as [Ha|(names & Hd & Hn)].
    - rewrite (get_image_files_absent _ _ Ha). eauto.
    - rewrite (get_image_files_dir _ _ _ Hd).
      replace (image_candidates (w_fs w) source_dir names) with (@nil Path).
      + simpl. eauto.
      + unfold image_candidates. clear Hd.
        induction Hn as [|n r Hn _ IH]; [reflexivity|].
        simpl. now rewrite Hn. }
  destruct Hnone as [w' Hw'].
  exists "No image files found in directory". split; [|discriminate].
  unfold convert_gallery. destruct Hf as [-> | ->]; simpl.
  - now rewrite (convert_to_pdf_empty _ _ _ _ _ _ Hw').
  - now rewrite (convert_to_cbz_empty _ _ _ _ _ _ Hw').
Qed.

(** C6. Unsupported format fails fast: for a format whose lowercase form
    is neither pdf nor cbz, [convert_gallery] returns [success = False],
    [input_files_count = 0] and the message "Unsupported format: " followed
    by the lowercase format; the file system is as before and no operation
    on it has been performed. *)
Theorem convert_gallery_unsupported w source_dir format_type output_path
    delete_source quality :
  Py.lower format_type <> "pdf" -> Py.lower format_type <> "cbz" ->
  convert_gallery be cfg source_dir format_type output_path delete_source
    quality w
  = (Ok (mkConversionResult false None 0
           (Some ("Unsupported format: " +:+ Py.lower format_type))),
     w).
Proof.
  intros Hp Hc. unfold convert_gallery.
  apply String.eqb_neq in Hp, Hc. now rewrite Hp, Hc.
Qed.

End ConverterFacts.

(** C5, at a directory that holds only a text file, for a PDF. *)
Lemma convert_gallery_no_images_witness :
  exists message,
    fst (convert_gallery failing_backend default_conversion gallery_dir "PDF"
           None false None (gallery_world ["notes.txt"]))
    = Ok (mkConversionResult false None 0 (Some message))
    /\ message <> "".
Proof.
  apply convert_gallery_no_images.
  - left. reflexivity.
  - right. exists ["notes.txt"]. split; [reflexivity|].
    repeat constructor.
Defined.

(** C6, at the format "epub". *)
Lemma convert_gallery_unsupported_witness :
  convert_gallery failing_backend default_conversion gallery_dir "EPUB"
    None true None (gallery_world ["img1.png"])
  = (Ok (mkConversionResult false None 0 (Some "Unsupported format: epub")),
     gallery_world ["img1.png"]).
Proof.
  apply (convert_gallery_unsupported failing_backend default_conversion
           (gallery_world ["img1.png"]) gallery_dir "EPUB" None true None);
    discriminate.
Defined.

(** C4, at a failing input: a gallery directory that holds a file named
    U+00B2 "1.png" next to img10.png and img2.png.  The name splits into
    the pieces U+00B2, "1", ".png"; [isdigit] accepts the superscript, [int]
    does not, and [get_image_files] raises [ValueError] where the claim has
    it return the files in natural order. *)
Theorem get_image_files_raises_on_superscript :
  fst (get_image_files gallery_dir
         (gallery_world ["img10.png"; String "178" "1.png"; "img2.png"]))
  = Raise (mkExc ValueError
             ("invalid literal for int() with base 10: '"
              +:+ String "178" "" +:+ "'")).
Proof. vm_compute. reflexivity. Qed.

(** C10, at a failing input: the key of the file name U+00B2 "1.png" is not
    computed, [_natural_sort_key] raises [ValueError] at the piece U+00B2,
    and so does [get_image_files] on a directory that holds only that file,
    where the claim has it return for every set of file names. *)
Theorem natural_sort_key_raises_on_superscript :
  re_split_digits (String "178" "1.png") = [String "178" ""; "1"; ".png"]
  /\ Py.isdigit (String "178" "") = true
  /\ is_ok (_natural_sort_key (String "178" "1.png")) = false
  /\ fst (get_image_files gallery_dir (gallery_world [String "178" "1.png"]))
     = Raise (mkExc ValueError
                ("invalid literal for int() with base 10: '"
                 +:+ String "178" "" +:+ "'")).
Proof. vm_compute. repeat split; reflexivity. Qed.

(** ** Job runner and batch orchestrator *)

Section DownloaderFacts.

Variable json_dumps : json -> string.
Variable flavour : PathFlavour.
Variable config : DownloadConfig.
Variable base_extractor base_other : list (string * json).

(** The functions of the downloader at these settings. *)
Local Abbreviation download_gallery' :=
  (download_gallery json_dumps flavour config base_extractor base_other).
Local Abbreviation download_multiple' :=
  (download_multiple json_dumps flavour config base_extractor base_other).
Local Abbreviation _prepare_config' :=
  (_prepare_config base_extractor base_other).

(** Without gallery metadata the job leaves the history store alone. *)
Lemma download_gallery_none_db env now url db :
  snd (download_gallery' env now url None db) = db.
Proof.
  unfold download_gallery.
  destruct (write_temp_config env _) as [f|e]; simpl.
  - destruct (subprocess_run env _ _) as [r|e]; simpl.
    + destruct (os_unlink env f) as [[]|e]; simpl.
      * destruct (Z.eqb (returncode r) 0); simpl; [|reflexivity].
        now destruct (enable_history config).
      * now destruct (exc_class e).
    + now destruct (exc_class e).
  - now destruct (exc_class e).
Qed.

(** An exception of one of the three external calls of a job ends in a
    failed result that carries its text. *)
Lemma download_gallery_raise env now url gallery_info db e :
  write_temp_config env (_prepare_config' gallery_info) = Raise e
  \/ (exists config_file,
        write_temp_config env (_prepare_config' gallery_info) = Ok config_file
        /\ (subprocess_run env (_prepare_config' gallery_info)
              (gallery_dl_command config config_file url) = Raise e
            \/ (exists result,
                  subprocess_run env (_prepare_config' gallery_info)
                    (gallery_dl_command config config_file url) = Ok result
                  /\ os_unlink env config_file = Raise e))) ->
  download_gallery' env now url gallery_info db
  = (mkDownloadResult false gallery_info None 0 (Some (reported_text e)), db).
Proof.
  unfold download_gallery, failure, reported_text.
  intros [H|(f & Hf & [H|(r & Hr & H)])].
  - rewrite H. simpl. now destruct (exc_class e).
  - rewrite Hf. simpl. rewrite H. simpl. now destruct (exc_class e).
  - rewrite Hf. simpl. rewrite Hr. simpl. rewrite H. simpl.
    now destruct (exc_class e).
Qed.

(** The loop visits every completed future once and keeps the result of
    each, whatever the others did. *)
Lemma gather_jobs has_callback total envs clock completed : forall i db,
  let out :=
    gather has_callback total
      (fun future db =>
         let '(r, db') :=
           download_gallery' (envs future.1) (clock future.1) future.2 None db
         in (Ok r, db'))
      i completed db in
  out.1.2 = map (fun future =>
                   fst (download_gallery' (envs future.1) (clock future.1)
                          future.2 None db)) completed
  /\ out.2 = db.
Proof.
  induction completed as [|future rest IH]; intros i db; [split; reflexivity|].
  cbn [gather map].
  pose proof (download_gallery_none_db (envs future.1) (clock future.1)
                future.2 db) as Hdb.
  destruct (download_gallery' (envs future.1) (clock future.1) future.2 None db)
    as [r db1] eqn:E. simpl in Hdb. subst db1.
  destruct (collect has_callback total i (Ok r)) as [events result] eqn:Ec.
  specialize (IH (S i) db). simpl in IH.
  destruct (gather has_callback total _ (S i) rest db)
    as [[events' results] db2].
  simpl in *. destruct IH as [-> ->].
  unfold collect in Ec. injection Ec as _ <-. split; reflexivity.
Qed.


(** C3. Fault isolation and exception capture: an exception raised in a
    job, the expiry of the timeout included, becomes a failed result that
    carries the error text; an exception that [future.result()] raises
    becomes a failed result that carries [str(e)]; and the results of
    [download_multiple] are, in completion order, the results of the jobs
    taken one by one, so that no job's failure removes or changes the
    result of another. *)
Theorem download_multiple_fault_isolation :
  (forall env now url gallery_info db e,
      write_temp_config env (_prepare_config' gallery_info) = Raise e
      \/ (exists config_file,
            write_temp_config env (_prepare_config' gallery_info)
            = Ok config_file
            /\ (subprocess_run env (_prepare_config' gallery_info)
                  (gallery_dl_command config config_file url) = Raise e
                \/ (exists result,
                      subprocess_run env (_prepare_config' gallery_info)
                        (gallery_dl_command config config_file url)
                      = Ok result
                      /\ os_unlink env config_file = Raise e))) ->
      download_gallery' env now url gallery_info db
      = (mkDownloadResult false gallery_info None 0 (Some (reported_text e)),
         db))
  /\ (forall has_callback total i e,
         snd (collect has_callback total i (Raise e))
         = mkDownloadResult false None None 0 (Some (exc_text e)))
  /\ (forall has_callback envs clock urls completed db,
         (download_multiple' has_callback envs clock urls completed db).1.2
         = map (fun future =>
                  fst (download_gallery' (envs future.1) (clock future.1)
                         future.2 None db)) completed).
Proof.
  split; [exact download_gallery_raise|]. split; [reflexivity|].
  intros. apply gather_jobs.
Qed.

End DownloaderFacts.


(** C3, at a job whose process runs into the timeout. *)
Lemma download_multiple_fault_isolation_witness :
  download_gallery (fun _ => "{}") posix_like sample_config [] []
    timeout_env "2024-01-01T00:00:00" "https://hentaifox.com/gallery/1/" None
    empty_database
  = (mkDownloadResult false None None 0 (Some "Download timed out"),
     empty_database).
Proof.
  apply (proj1 (download_multiple_fault_isolation (fun _ => "{}") posix_like
                  sample_config [] [])
           timeout_env "2024-01-01T00:00:00" "https://hentaifox.com/gallery/1/"
           None empty_database
           (mkExc TimeoutExpired "timed out after 3600 seconds")).
  right. exists "/tmp/cfg.json". split; [reflexivity|]. left. reflexivity.
Defined.

(** ** Gallery-list parser *)




(** * Further properties *)

(** ** The order of texts *)

Section TextOrder.

Lemma compare_trans_le (a : string) : forall b c,
  String.compare a b <> Gt -> String.compare b c <> Gt ->
  String.compare a c <> Gt
  /\ (String.compare a b = Lt \/ String.compare b c = Lt ->
      String.compare a c = Lt).
Proof.
  induction a as [|x a IH]; intros [|y b] [|z c]; simpl;
    try (intuition congruence).
  unfold Ascii.compare.
  destruct (N.compare_spec (N_of_ascii x) (N_of_ascii y)) as [Hxy|Hxy|Hxy];
    destruct (N.compare_spec (N_of_ascii y) (N_of_ascii z)) as [Hyz|Hyz|Hyz];
    intros H1 H2; try congruence.
  - rewrite Hxy, Hyz, N.compare_refl. now apply IH.
  - rewrite Hxy. apply N.compare_lt_iff in Hyz. rewrite Hyz. intuition congruence.
  - rewrite <- Hyz. apply N.compare_lt_iff in Hxy. rewrite Hxy.
    intuition congruence.
  - assert (H : (N_of_ascii x < N_of_ascii z)%N) by lia.
    apply N.compare_lt_iff in H. rewrite H. intuition congruence.
Qed.

Lemma str_lt_irrefl s : str_lt s s = false.
Proof.
  unfold str_lt. assert (H : String.compare s s = Eq).
  { induction s as [|c s IH]; simpl; [reflexivity|].
    unfold Ascii.compare. now rewrite N.compare_refl. }
  now rewrite H.
Qed.

Lemma str_lt_false_iff a b : str_lt a b = false <-> String.compare b a <> Gt.
Proof.
  unfold str_lt. rewrite (String.compare_antisym a b).
  destruct (String.compare b a); simpl; intuition congruence.
Qed.

Lemma str_lt_true_iff a b : str_lt a b = true <-> String.compare a b = Lt.
Proof. unfold str_lt. destruct (String.compare a b); intuition congruence. Qed.

(** [b] not before [a], and [b] before [c]: then [a] before [c]. *)
Lemma str_le_lt_trans a b c :
  str_lt b a = false -> str_lt b c = true -> str_lt a c = true.
Proof.
  rewrite str_lt_false_iff, !str_lt_true_iff. intros H1 H2.
  apply (compare_trans_le a b c); [exact H1|congruence|auto].
Qed.

Lemma str_lt_le_trans a b c :
  str_lt a b = true -> str_lt c b = false -> str_lt a c = true.
Proof.
  rewrite str_lt_false_iff, !str_lt_true_iff. intros H1 H2.
  apply (compare_trans_le a b c); [congruence|exact H2|auto].
Qed.

Lemma str_le_trans a b c :
  str_lt b a = false -> str_lt c b = false -> str_lt c a = false.
Proof.
  rewrite !str_lt_false_iff. intros H1 H2.
  now apply (compare_trans_le a b c).
Qed.

End TextOrder.

(** ** History store: lookups after inserts, rowids *)

Section HistoryMore.

Variable json_dumps : json -> string.

Lemma filter_key_absent db gallery_id site :
  is_downloaded db gallery_id site = false ->
  filter (fun e => key_matches gallery_id site e = true) (downloads db) = [].
Proof.
  unfold is_downloaded, count_key. intros H.
  destruct (filter _ (downloads db)); [reflexivity|discriminate].
Qed.

(** X1. Insert then look up: after [add_download] the gallery counts as
    downloaded, and [get_download_id] gives the id that [add_download]
    returned, which is never [None]. *)
Theorem add_download_then_lookup db gi path n site now :
  let r := add_download json_dumps db gi path n site now in
  is_downloaded (snd r) (gi_id gi) site = true
  /\ get_download_id (snd r) (gi_id gi) site = fst r
  /\ is_Some (fst r).
Proof.
  intros r. subst r. unfold add_download.
  destruct (is_downloaded db (gi_id gi) site) eqn:Hd; simpl.
  - split; [exact Hd|]. split; [reflexivity|].
    destruct (add_download_existing json_dumps db gi path n site now Hd)
      as (e & _ & _ & _ & E).
    unfold add_download in E. rewrite Hd in E. injection E as ->. eauto.
  - unfold is_downloaded, count_key, get_download_id. simpl.
    rewrite filter_app, (filter_key_absent _ _ _ Hd).
    rewrite filter_cons, filter_nil. simpl.
    rewrite decide_True.
    + simpl. repeat split; eauto.
    + simpl. unfold key_matches. simpl. now rewrite !String.eqb_refl.
Qed.

(** X2. Other keys are not affected: [add_download] for one key changes
    neither [is_downloaded] nor [get_download_id] of any other key, and it
    keeps every stored row, adding at the end only. *)
Theorem add_download_other_keys db gi path n site now gallery_id s :
  gallery_id <> gi_id gi \/ s <> site ->
  let db' := snd (add_download json_dumps db gi path n site now) in
  is_downloaded db' gallery_id s = is_downloaded db gallery_id s
  /\ get_download_id db' gallery_id s = get_download_id db gallery_id s
  /\ exists added, downloads db' = downloads db ++ added.
Proof.
  intros Hne db'. subst db'. unfold add_download.
  destruct (is_downloaded db (gi_id gi) site); simpl.
  - repeat split; auto. exists []. now rewrite app_nil_r.
  - assert (Hf : forall rows (e : HistoryEntry),
               he_gallery_id e = gi_id gi -> he_site e = site ->
               filter (fun x => key_matches gallery_id s x = true) (rows ++ [e])
               = filter (fun x => key_matches gallery_id s x = true) rows).
    { intros rows e Hg Hs. rewrite filter_app, filter_cons, filter_nil.
      rewrite decide_False; [apply app_nil_r|].
      rewrite key_matches_spec, Hg, Hs. intros [<- <-].
      destruct Hne; congruence. }
    unfold is_downloaded, count_key, get_download_id. simpl.
    rewrite Hf by reflexivity. repeat split; eauto.
Qed.

Lemma foldr_max_bounded (rows : list HistoryEntry) seq :
  Forall (fun e => he_id e <= seq) rows ->
  foldr (fun e m => Z.max (he_id e) m) seq rows = seq.
Proof.
  induction 1 as [|e rows He _ IH]; simpl; [reflexivity|]. rewrite IH. lia.
Qed.

(** The rowids of a store the program built are positive, distinct and at
    most the AUTOINCREMENT counter. *)
Lemma reachable_rowids_inv db :
  reachable json_dumps db ->
  0 <= sqlite_sequence db
  /\ NoDup (map he_id (downloads db))
  /\ Forall (fun e => 0 < he_id e <= sqlite_sequence db) (downloads db).
Proof.
  induction 1 as [|db gi path n s now _ (Hs & Hn & Hf)
                  |db m _ (Hs & Hn & Hf)|db _ (Hs & _ & _)].
  - simpl. repeat split; [lia|constructor|constructor].
  - unfold add_download. destruct (is_downloaded db (gi_id gi) s); simpl;
      [auto|].
    assert (Hnext : next_rowid db = 1 + sqlite_sequence db).
    { unfold next_rowid. rewrite foldr_max_bounded; [reflexivity|].
      eapply Forall_impl; [exact Hf|]. simpl. lia. }
    rewrite Hnext. split; [lia|]. split.
    + rewrite map_app. apply NoDup_app. split; [exact Hn|]. split.
      * intros x Hx Hx'. simpl in Hx'. apply list_elem_of_singleton in Hx'.
        apply list_elem_of_fmap in Hx as (e & -> & He).
        rewrite Forall_forall in Hf. specialize (Hf e He). lia.
      * apply NoDup_singleton.
    + apply Forall_app. split.
      * eapply Forall_impl; [exact Hf|]. simpl. lia.
      * constructor; [simpl; lia|constructor].
  - unfold cleanup_old_entries. destruct (Z.ltb _ _); [|auto]. simpl.
    split; [exact Hs|]. split.
    + eapply sublist_NoDup; [exact Hn|].
      apply fmap_sublist, sublist_filter.
    + apply Forall_forall. intros e He.
      apply list_elem_of_filter in He as [_ He].
      rewrite Forall_forall in Hf. auto.
  - simpl. repeat split; [exact Hs|constructor|constructor].
Qed.

(** X3. Rowids are never reused: in a store built by the program the ids
    are distinct, and a new row receives the counter plus one, an id above
    every id now stored and every id handed out before, also after
    [clear_history] or [cleanup_old_entries] removed rows. *)
Theorem reachable_rowids db gi path n site now :
  reachable json_dumps db ->
  is_downloaded db (gi_id gi) site = false ->
  NoDup (map he_id (downloads db))
  /\ fst (add_download json_dumps db gi path n site now)
     = Some (sqlite_sequence db + 1)
  /\ Forall (fun e => he_id e < sqlite_sequence db + 1) (downloads db)
  /\ sqlite_sequence (snd (add_download json_dumps db gi path n site now))
     = sqlite_sequence db + 1
  /\ sqlite_sequence (clear_history db) = sqlite_sequence db.
Proof.
  intros Hr Hd. destruct (reachable_rowids_inv db Hr) as (Hs & Hn & Hf).
  assert (Hnext : next_rowid db = sqlite_sequence db + 1).
  { unfold next_rowid. rewrite foldr_max_bounded; [lia|].
    eapply Forall_impl; [exact Hf|]. simpl. lia. }
  unfold add_download. rewrite Hd. simpl. rewrite Hnext.
  repeat split; auto.
  eapply Forall_impl; [exact Hf|]. simpl. lia.
Qed.

End HistoryMore.

(** X2, at a second gallery of the same site. *)
Lemma add_download_other_keys_witness :
  let g := mkGalleryInfo "147838" "t" "u" [] None None None None None in
  let db' := snd (add_download (fun _ => EmptyString) empty_database g "p" 49
                    "hentaifox" "2024-01-01T00:00:00") in
  is_downloaded db' "2" "hentaifox" = is_downloaded empty_database "2" "hentaifox"
  /\ get_download_id db' "2" "hentaifox"
     = get_download_id empty_database "2" "hentaifox"
  /\ exists added, downloads db' = downloads empty_database ++ added.
Proof.
  intros g.
  apply (add_download_other_keys (fun _ => EmptyString) empty_database g "p" 49
           "hentaifox" "2024-01-01T00:00:00" "2" "hentaifox").
  left. discriminate.
Defined.

(** X3, at a store that was filled and then cleared. *)
Lemma reachable_rowids_witness :
  let g := mkGalleryInfo "147838" "t" "u" [] None None None None None in
  let db := clear_history
              (snd (add_download (fun _ => EmptyString) empty_database g "p" 49
                      "hentaifox" "2024-01-01T00:00:00")) in
  NoDup (map he_id (downloads db))
  /\ fst (add_download (fun _ => EmptyString) db g "p" 49 "hentaifox"
            "2024-01-02T00:00:00")
     = Some (sqlite_sequence db + 1)
  /\ Forall (fun e => he_id e < sqlite_sequence db + 1) (downloads db)
  /\ sqlite_sequence
       (snd (add_download (fun _ => EmptyString) db g "p" 49 "hentaifox"
               "2024-01-02T00:00:00"))
     = sqlite_sequence db + 1
  /\ sqlite_sequence (clear_history db) = sqlite_sequence db.
Proof.
  intros g db.
  apply (reachable_rowids (fun _ => EmptyString) db g "p" 49 "hentaifox"
           "2024-01-02T00:00:00").
  - apply reach_clear, reach_add, reach_init.
  - reflexivity.
Defined.

(** ** History store: retention *)

Section HistoryRetention.

Lemma oldest_min rows e :
  oldest rows = Some e ->
  e ∈ rows
  /\ forall x, x ∈ rows ->
       str_lt (he_downloaded_at x) (he_downloaded_at e) = false.
Proof.
  revert e. induction rows as [|y rows IH]; intros e; simpl; [discriminate|].
  destruct (oldest rows) as [b|] eqn:Hb.
  - destruct (IH b eq_refl) as [Hin Hmin].
    destruct (str_lt (he_downloaded_at b) (he_downloaded_at y)) eqn:Hby;
      intros [= <-].
    + split; [now right|]. intros x Hx.
      apply elem_of_cons in Hx as [->|Hx]; [|auto].
      now apply str_lt_asym.
    + split; [left|]. intros x Hx.
      apply elem_of_cons in Hx as [->|Hx]; [apply str_lt_irrefl|].
      destruct (str_lt (he_downloaded_at x) (he_downloaded_at y)) eqn:Hxy;
        [|reflexivity].
      rewrite (str_le_lt_trans _ _ _ (Hmin x Hx) Hxy) in Hby. discriminate.
  - intros [= <-]. destruct rows as [|z rows].
    + split; [left|]. intros x Hx. apply list_elem_of_singleton in Hx as ->.
      apply str_lt_irrefl.
    + simpl in Hb. destruct (oldest rows); [destruct (str_lt _ _)|];
        discriminate.
Qed.

Lemma oldest_some rows : rows <> [] -> is_Some (oldest rows).
Proof.
  destruct rows as [|x rows]; [congruence|]. intros _. simpl.
  destruct (oldest rows); [destruct (str_lt _ _)|]; eauto.
Qed.

Lemma length_filter_drop_id (rows : list HistoryEntry) e :
  NoDup (map he_id rows) -> e ∈ rows ->
  S (length (filter (fun r => he_id r <> he_id e) rows)) = length rows.
Proof.
  induction rows as [|x rows IH]; intros Hn He; [inversion He|].
  simpl in Hn. apply NoDup_cons in Hn as [Hx Hn].
  rewrite filter_cons. apply elem_of_cons in He as [->|He].
  - rewrite decide_False by tauto. simpl. f_equal.
    clear IH. induction rows as [|y rows IH]; [reflexivity|].
    simpl in Hx, Hn. apply NoDup_cons in Hn as [_ Hn].
    apply not_elem_of_cons in Hx as [Hxy Hx].
    rewrite filter_cons, decide_True by congruence. simpl. f_equal. auto.
  - rewrite decide_True.
    + simpl. f_equal. auto.
    + intros E. apply Hx. rewrite E. apply list_elem_of_fmap. eauto.
Qed.

(** The ids chosen for deletion: as many as asked for, if there are that
    many rows; distinct; each the id of a row that no row left behind is
    older than. *)
Lemma oldest_ids_spec n : forall rows,
  NoDup (map he_id rows) ->
  length (oldest_ids n rows) = Nat.min n (length rows)
  /\ NoDup (oldest_ids n rows)
  /\ forall id, id ∈ oldest_ids n rows ->
       exists e, e ∈ rows /\ he_id e = id
                 /\ forall k, k ∈ rows -> he_id k ∉ oldest_ids n rows ->
                      str_lt (he_downloaded_at k) (he_downloaded_at e) = false.
Proof.
  induction n as [|n IH]; intros rows Hn.
  - simpl. repeat split; [constructor|]. intros id H. inversion H.
  - cbn [oldest_ids]. destruct (oldest rows) as [e|] eqn:He.
    + destruct (oldest_min rows e He) as [Hin Hmin].
      set (rest := filter (fun r => he_id r <> he_id e) rows).
      assert (Hn' : NoDup (map he_id rest)).
      { eapply sublist_NoDup; [exact Hn|]. apply fmap_sublist, sublist_filter. }
      destruct (IH rest Hn') as (Hlen & Hnd & Hspec).
      assert (Hfresh : he_id e ∉ oldest_ids n rest).
      { intros H. destruct (Hspec _ H) as (x & Hx & Hid & _).
        apply list_elem_of_filter in Hx as [Hx _]. congruence. }
      split; [|split].
      * cbn [length]. rewrite Hlen.
        pose proof (length_filter_drop_id rows e Hn Hin) as H.
        change (S (length rest) = length rows) in H. lia.
      * now constructor.
      * intros id Hid. apply elem_of_cons in Hid as [->|Hid].
        -- exists e. repeat split; auto.
        -- destruct (Hspec id Hid) as (x & Hx & Hxid & Hxmin).
           apply list_elem_of_filter in Hx as [Hxe Hx].
           exists x. repeat split; auto. intros k Hk Hnot.
           apply not_elem_of_cons in Hnot as [Hke Hnot].
           apply Hxmin; [|exact Hnot].
           apply list_elem_of_filter. split; auto.
    + destruct rows as [|x rows].
      * simpl. repeat split; [constructor|]. intros id H. inversion H.
      * destruct (oldest_some (x :: rows)) as [? E]; [discriminate|].
        congruence.
Qed.

Lemma length_filter_drop_ids (rows : list HistoryEntry) : forall ids,
  NoDup (map he_id rows) -> NoDup ids ->
  (forall id, id ∈ ids -> id ∈ map he_id rows) ->
  (length (filter (fun r => he_id r ∉ ids) rows) + length ids)%nat
  = length rows.
Proof.
  intros ids. induction ids as [|id ids IH]; intros Hn Hd Hsub.
  - simpl. rewrite Nat.add_0_r. f_equal. clear.
    induction rows as [|r rows IH]; [reflexivity|].
    rewrite filter_cons, decide_True, IH; [reflexivity|]. intros H. inversion H.
  - apply NoDup_cons in Hd as [Hid Hd].
    assert (Hsub' : forall x, x ∈ ids -> x ∈ map he_id rows).
    { intros x Hx. apply Hsub. now right. }
    specialize (IH Hn Hd Hsub').
    destruct (proj1 (list_elem_of_fmap _ _ _) (Hsub id ltac:(left)))
      as (e & -> & He).
    set (kept := filter (fun r => he_id r ∉ ids) rows) in *.
    assert (Heq : filter (fun r => he_id r ∉ he_id e :: ids) rows
                  = filter (fun r => he_id r <> he_id e) kept).
    { subst kept. rewrite list_filter_filter. apply list_filter_iff.
      intros r. rewrite not_elem_of_cons. tauto. }
    rewrite Heq.
    assert (Hk : S (length (filter (fun r => he_id r <> he_id e) kept))
                 = length kept).
    { apply length_filter_drop_id.
      - eapply sublist_NoDup; [exact Hn|].
        apply fmap_sublist, sublist_filter.
      - apply list_elem_of_filter. auto. }
    simpl. lia.
Qed.

(** X4. Retention: on a store with distinct rowids, for a cap that is not
    negative, [cleanup_old_entries] leaves the rows of the store in their
    order, as many as the cap allows, and removes oldest rows only: no row
    it keeps is older than a row it removes. *)
Theorem cleanup_old_entries_keeps_newest db max_entries :
  NoDup (map he_id (downloads db)) -> 0 <= max_entries ->
  let db' := cleanup_old_entries db max_entries in
  Z.of_nat (length (downloads db'))
  = Z.min (Z.of_nat (length (downloads db))) max_entries
  /\ downloads db' `sublist_of` downloads db
  /\ forall k e,
       k ∈ downloads db' -> e ∈ downloads db -> e ∉ downloads db' ->
       str_lt (he_downloaded_at k) (he_downloaded_at e) = false.
Proof.
  intros Hn Hmax db'. subst db'. unfold cleanup_old_entries.
  destruct (Z.ltb_spec max_entries (Z.of_nat (length (downloads db))))
    as [Hlt|Hge].
  - simpl.
    set (n := Z.to_nat (Z.of_nat (length (downloads db)) - max_entries)).
    destruct (oldest_ids_spec n (downloads db) Hn) as (Hlen & Hnd & Hspec).
    split; [|split].
    + pose proof (length_filter_drop_ids (downloads db) (oldest_ids n (downloads db))
                    Hn Hnd) as H.
      rewrite Hlen in H. subst n. 
      assert (Hs : forall id, id ∈ oldest_ids
                     (Z.to_nat (Z.of_nat (length (downloads db)) - max_entries))
                     (downloads db) -> id ∈ map he_id (downloads db)).
      { intros id Hid. destruct (Hspec id Hid) as (e & He & <- & _).
        apply list_elem_of_fmap. eauto. }
      specialize (H Hs). lia.
    + apply sublist_filter.
    + intros k e Hk He Hne.
      apply list_elem_of_filter in Hk as [Hkid Hk].
      assert (Hid : he_id e ∈ oldest_ids n (downloads db)).
      { destruct (decide (he_id e ∈ oldest_ids n (downloads db))); [auto|].
        exfalso. apply Hne. apply list_elem_of_filter. auto. }
      destruct (Hspec _ Hid) as (e' & He' & Hid' & Hmin).
      assert (e' = e) as ->.
      { clear -Hn He He' Hid'. induction (downloads db) as [|x rows IH];
          [inversion He|].
        simpl in Hn. apply NoDup_cons in Hn as [Hx Hn].
        apply elem_of_cons in He as [->|He];
          apply elem_of_cons in He' as [->|He']; auto.
        - exfalso. apply Hx. rewrite <- Hid'. apply list_elem_of_fmap. eauto.
        - exfalso. apply Hx. rewrite Hid'. apply list_elem_of_fmap. eauto. }
      auto.
  - split; [lia|]. split; [reflexivity|]. intros k e _ He Hne. tauto.
Qed.

End HistoryRetention.

(** X4, at a store of three rows and a cap of two. *)
Lemma cleanup_old_entries_keeps_newest_witness :
  let row i t := mkHistoryEntry i "g" "t" "u" "p" t 1 "hentaifox" None in
  let db := mkDatabase [row 1 "2024-01-03"; row 2 "2024-01-01"; row 3 "2024-01-02"] 3 in
  let db' := cleanup_old_entries db 2 in
  Z.of_nat (length (downloads db'))
  = Z.min (Z.of_nat (length (downloads db))) 2
  /\ downloads db' `sublist_of` downloads db
  /\ forall k e,
       k ∈ downloads db' -> e ∈ downloads db -> e ∉ downloads db' ->
       str_lt (he_downloaded_at k) (he_downloaded_at e) = false.
Proof.
  intros row db.
  apply (cleanup_old_entries_keeps_newest db 2).
  - apply (bool_decide_unpack _). vm_compute. reflexivity.
  - lia.
Defined.

(** ** History store: statistics and queries *)

Section HistoryStats.

Lemma group_by_site_lookup rows s :
  group_by_site rows !! s
  = match length (filter (fun e => he_site e = s) rows) with
    | O => None
    | S n => Some (Z.of_nat (S n))
    end.
Proof.
  induction rows as [|e rows IH]; [reflexivity|].
  cbn [group_by_site foldr]. fold (group_by_site rows).
  rewrite filter_cons. destruct (decide (he_site e = s)) as [->|Hne].
  - rewrite lookup_insert_eq, IH. cbn [length].
    destruct (length (filter _ rows)); simpl; f_equal; lia.
  - now rewrite lookup_insert_ne.
Qed.

Lemma sum_values_insert (m : gmap string Z) s v :
  map_fold (fun _ n acc => n + acc) 0 (<[s:=v]> m)
  = v + map_fold (fun _ n acc => n + acc) 0 m - default 0 (m !! s).
Proof.
  destruct (m !! s) as [n|] eqn:E; simpl.
  - rewrite <- (insert_delete_eq m s v).
    rewrite <- (insert_delete_id m s n E) at 2.
    rewrite !map_fold_insert_L;
      [lia|intros; lia|apply lookup_delete_eq|intros; lia
      |apply lookup_delete_eq].
  - rewrite map_fold_insert_L; [lia|intros; lia|exact E].
Qed.

Lemma group_by_site_total rows :
  map_fold (fun _ n acc => n + acc) 0 (group_by_site rows)
  = Z.of_nat (length rows).
Proof.
  induction rows as [|e rows IH]; [apply map_fold_empty|].
  cbn [group_by_site foldr]. fold (group_by_site rows).
  rewrite sum_values_insert, IH. cbn [length]. lia.
Qed.

(** X5. Statistics by site: [by_site] maps each site to the number of its
    rows and holds no site without rows, its counts add up to
    [total_downloads], and [recent_downloads] lies between 0 and
    [total_downloads]. *)
Theorem get_stats_by_site db week_ago :
  (forall s,
      by_site (get_stats db week_ago) !! s
      = match length (filter (fun e => he_site e = s) (downloads db)) with
        | O => None
        | S n => Some (Z.of_nat (S n))
        end)
  /\ map_fold (fun _ n acc => n + acc) 0 (by_site (get_stats db week_ago))
     = total_downloads (get_stats db week_ago)
  /\ 0 <= recent_downloads (get_stats db week_ago)
     <= total_downloads (get_stats db week_ago).
Proof.
  split; [intros s; apply group_by_site_lookup|].
  split; [apply group_by_site_total|]. simpl.
  pose proof (length_filter (fun e => str_le week_ago (he_downloaded_at e) = true)
                (downloads db)). lia.
Qed.

Variable json_loads : string -> option json.

Lemma insert_desc_perm e rows : Permutation (insert_desc e rows) (e :: rows).
Proof.
  induction rows as [|x rows IH]; simpl; [reflexivity|].
  destruct (str_lt _ _); [|reflexivity].
  rewrite IH. apply perm_swap.
Qed.

Lemma order_desc_perm rows : Permutation (order_desc rows) rows.
Proof.
  induction rows as [|x rows IH]; simpl; [reflexivity|].
  rewrite insert_desc_perm. now constructor.
Qed.

(** [a] may stand before [b] in a listing that puts the newest first. *)
Let newer_first (a b : HistoryEntry) : Prop :=
  str_lt (he_downloaded_at a) (he_downloaded_at b) = false.

Lemma insert_desc_sorted e rows :
  StronglySorted newer_first rows ->
  StronglySorted newer_first (insert_desc e rows).
Proof.
  induction 1 as [|x rows Hs IH Hx]; simpl.
  - repeat constructor.
  - destruct (str_lt (he_downloaded_at e) (he_downloaded_at x)) eqn:Hex.
    + constructor; [exact IH|].
      rewrite Forall_forall. intros y Hy.
      rewrite insert_desc_perm in Hy. apply elem_of_cons in Hy as [->|Hy].
      * now apply str_lt_asym.
      * rewrite Forall_forall in Hx. auto.
    + constructor; [now constructor|]. constructor; [exact Hex|].
      rewrite Forall_forall in *. intros y Hy. specialize (Hx y Hy).
      unfold newer_first in *.
      destruct (str_lt (he_downloaded_at e) (he_downloaded_at y)) eqn:Hey;
        [|reflexivity].
      rewrite (str_lt_le_trans _ _ _ Hey Hx) in Hex. discriminate.
Qed.

Lemma order_desc_sorted rows : StronglySorted newer_first (order_desc rows).
Proof.
  induction rows as [|x rows IH]; simpl; [constructor|].
  now apply insert_desc_sorted.
Qed.

Lemma map_hi_row rows : map hi_row (map (to_item json_loads) rows) = rows.
Proof. induction rows as [|x rows IH]; simpl; congruence. Qed.

Lemma sql_limit_split {A} n (l : list A) :
  exists rest, l = sql_limit n l ++ rest
               /\ length (sql_limit n l)
                  = if Z.ltb n 0 then length l
                    else Nat.min (Z.to_nat n) (length l).
Proof.
  unfold sql_limit. destruct (Z.ltb n 0).
  - exists []. now rewrite app_nil_r.
  - exists (drop (Z.to_nat n) l). split; [now rewrite take_drop|].
    apply list.length_take.
Qed.

(** X6. Recent downloads: [get_recent_downloads] returns rows of the
    store, each at most once, newest first; it returns [limit] of them, or
    all when there are fewer or when the limit is negative; and no row it
    leaves out is newer than a row it returns. *)
Theorem get_recent_downloads_newest db limit :
  let rows := map hi_row (get_recent_downloads json_loads db limit) in
  length rows
  = (if Z.ltb limit 0 then length (downloads db)
     else Nat.min (Z.to_nat limit) (length (downloads db)))
  /\ StronglySorted
       (fun a b => str_lt (he_downloaded_at a) (he_downloaded_at b) = false)
       rows
  /\ exists rest,
       Permutation (rows ++ rest) (downloads db)
       /\ forall a b, a ∈ rows -> b ∈ rest ->
            str_lt (he_downloaded_at a) (he_downloaded_at b) = false.
Proof.
  intros rows. subst rows. unfold get_recent_downloads. rewrite map_hi_row.
  destruct (sql_limit_split limit (order_desc (downloads db)))
    as (rest & Hsplit & Hlen).
  pose proof (order_desc_sorted (downloads db)) as Hs.
  rewrite Hsplit in Hs.
  split; [|split].
  - rewrite Hlen. now rewrite (Permutation_length (order_desc_perm _)).
  - eapply StronglySorted_app_1_l. exact Hs.
  - exists rest. split.
    + rewrite <- Hsplit. apply order_desc_perm.
    + intros a b Ha Hb.
      eapply (StronglySorted_app_1_elem_of newer_first); eauto.
Qed.

End HistoryStats.

(** ** History store: search *)

Section HistorySearch.



Lemma prefix_cons a p b s :
  String.prefix (String a p) (String b s)
  = (Ascii.eqb a b && String.prefix p s)%bool.
Proof.
  simpl. destruct (ascii_dec a b) as [->|Hne].
  - now rewrite Ascii.eqb_refl.
  - apply Ascii.eqb_neq in Hne. now rewrite Hne.
Qed.



Variable json_loads : string -> option json.


End HistorySearch.


(** ** Archive converter: results *)

Section SortedMore.

Context {A K : Type} (lt : K -> K -> Exc bool).

Lemma insert_keyed_perm (x : K * A) : forall l l',
  insert_keyed lt x l = Ok l' -> Permutation l' (x :: l).
Proof.
  induction l as [|y r IH]; intros l'; simpl.
  - intros [= <-]. reflexivity.
  - destruct (lt y.1 x.1) as [[|]|e]; simpl; try discriminate.
    + destruct (insert_keyed lt x r) as [r'|e] eqn:E; simpl; [|discriminate].
      intros [= <-]. rewrite (IH r' eq_refl). apply perm_swap.
    + intros [= <-]. reflexivity.
Qed.

Lemma sort_keyed_perm : forall l l' : list (K * A),
  sort_keyed lt l = Ok l' -> Permutation l' l.
Proof.
  induction l as [|x r IH]; intros l'; simpl.
  - intros [= <-]. reflexivity.
  - destruct (sort_keyed lt r) as [r'|e]; simpl; [|discriminate].
    intros H. rewrite (insert_keyed_perm _ _ _ H). constructor. now apply IH.
Qed.

Lemma exc_map_keyed_snd (key : A -> Exc K) : forall l keyed,
  exc_map (fun x => k ← key x; Ok (k, x)) l = Ok keyed -> map snd keyed = l.
Proof.
  induction l as [|x r IH]; intros keyed; simpl.
  - intros [= <-]. reflexivity.
  - destruct (key x) as [k|e]; simpl; [|discriminate].
    destruct (exc_map _ r) as [ys|e]; simpl; [|discriminate].
    intros [= <-]. simpl. f_equal. now apply IH.
Qed.

(** Whenever [sorted] returns, it returns a rearrangement of its
    argument. *)
Lemma sorted_perm (key : A -> Exc K) l l' :
  sorted lt key l = Ok l' -> Permutation l' l.
Proof.
  unfold sorted.
  destruct (exc_map _ l) as [keyed|e] eqn:E; simpl; [|discriminate].
  destruct (sort_keyed lt keyed) as [s|e] eqn:Es; simpl; [|discriminate].
  intros [= <-]. rewrite <- (exc_map_keyed_snd key l keyed E).
  apply Permutation_map. now apply sort_keyed_perm.
Qed.

End SortedMore.

Section ConverterResults.

Variable be : Backend.
Variable cfg : ConversionConfig.

(** What [get_image_files] can answer: nothing for a missing directory,
    an exception, or a rearrangement of the candidates of a directory; the
    file system is as before. *)
Lemma get_image_files_cases w directory :
  exists w', w_fs w' = w_fs w
    /\ (get_image_files directory w = (Ok [], w')
        \/ (exists e, get_image_files directory w = (Raise e, w'))
        \/ (exists names l,
              w_fs w !! directory = Some (Dir names)
              /\ get_image_files directory w = (Ok l, w')
              /\ Permutation l (image_candidates (w_fs w) directory names))).
Proof.
  destruct (w_fs w !! directory) as [[|names]|] eqn:Hd.
  - eexists. split; [|right; left; eexists].
    2:{ unfold get_image_files.
        rewrite bind_run, path_exists_run, Hd, bool_decide_true by eauto.
        cbn [negb]. unfold path_iterdir, log_op, lookup_node.
        rewrite !bind_run. cbn [w_fs]. rewrite Hd. reflexivity. }
    reflexivity.
  - rewrite (get_image_files_dir w directory names Hd).
    eexists. split; [|]. 2:{
    destruct (sorted _ _ _) as [l|e] eqn:E.
    - right. right. exists names, l. split; [reflexivity|].
      split; [reflexivity|]. eapply sorted_perm. exact E.
    - right. left. eauto. }
    reflexivity.
  - rewrite (get_image_files_absent w directory Hd).
    eexists. split; [|left; reflexivity]. reflexivity.
Qed.

(** How a conversion may end, for the output path [out]. *)
Let ends_well (w : world) (source_dir out : Path) (r : ConversionResult)
  : Prop :=
  (cr_success r = false /\ cr_output_path r = None
   /\ is_Some (cr_error_message r))
  \/ (cr_success r = true /\ cr_error_message r = None
      /\ cr_output_path r = Some out
      /\ exists names,
           w_fs w !! source_dir = Some (Dir names)
           /\ cr_input_files_count r
              = Z.of_nat (length (image_candidates (w_fs w) source_dir names))
           /\ 0 < cr_input_files_count r).

Ltac ends_failed :=
  eexists; split; [reflexivity|]; left; simpl; eauto.

(** One step of a computation: how its first action ends. *)
Ltac first_action :=
  rewrite bind_run;
  match goal with
  | |- context [match ?c with pair _ _ => _ end] =>
      lazymatch c with
      | match _ with pair _ _ => _ end => fail
      | _ => destruct c as [[?|?] ?]
      end
  end.

Lemma convert_to_pdf_shape w source_dir output_path delete_source quality :
  exists r,
    fst (convert_to_pdf be cfg source_dir output_path delete_source quality w)
    = Ok r
    /\ ends_well w source_dir
         (default (path_child source_dir (path_name source_dir +:+ ".pdf"))
                  output_path) r.
Proof.
  unfold convert_to_pdf, try_except at 1. rewrite bind_run.
  destruct (get_image_files_cases w source_dir)
    as (w' & Hfs & [H|[[e H]|(names & l & Hd & H & Hp)]]); rewrite H;
    [ends_failed|ends_failed|].
  unfold try_except. destruct l as [|x l]; [ends_failed|].
  first_action; [|ends_failed].
  match goal with
  | |- context [omap id ?pages] => destruct (omap id pages) as [|pg pgs]
  end; [ends_failed|].
  first_action; [|ends_failed].
  first_action; [|ends_failed].
  eexists. split; [reflexivity|]. right.
  cbn [cr_success cr_error_message cr_output_path cr_input_files_count].
  split; [reflexivity|]. split; [reflexivity|]. split; [reflexivity|].
  exists names. split; [exact Hd|].
  rewrite <- (Permutation_length Hp). cbn [length]. split; [reflexivity|lia].
Qed.

Lemma convert_to_cbz_shape w source_dir output_path delete_source quality :
  exists r,
    fst (convert_to_cbz be cfg source_dir output_path delete_source quality w)
    = Ok r
    /\ ends_well w source_dir
         (default (path_child source_dir (path_name source_dir +:+ ".cbz"))
                  output_path) r.
Proof.
  unfold convert_to_cbz, try_except at 1. rewrite bind_run.
  destruct (get_image_files_cases w source_dir)
    as (w' & Hfs & [H|[[e H]|(names & l & Hd & H & Hp)]]); rewrite H;
    [ends_failed|ends_failed|].
  unfold try_except. destruct l as [|x l]; [ends_failed|].
  first_action; [|ends_failed].
  first_action; [|ends_failed].
  first_action; [|ends_failed].
  eexists. split; [reflexivity|]. right.
  cbn [cr_success cr_error_message cr_output_path cr_input_files_count].
  split; [reflexivity|]. split; [reflexivity|]. split; [reflexivity|].
  exists names. split; [exact Hd|].
  rewrite <- (Permutation_length Hp). cbn [length]. split; [reflexivity|lia].
Qed.

(** X8. Conversion never raises and its result is well formed: whatever
    the directory, the format and the back ends do, [convert_gallery]
    returns a result.  A failed one has no output path and has an error
    message.  A successful one has no error message, names the output file
    (the path given, or "<directory name>.<format>" inside the directory)
    and counts the image files of the directory, of which there is at
    least one. *)
Theorem convert_gallery_result w source_dir format_type output_path
    delete_source quality :
  exists r,
    fst (convert_gallery be cfg source_dir format_type output_path
           delete_source quality w) = Ok r
    /\ ((cr_success r = false /\ cr_output_path r = None
         /\ is_Some (cr_error_message r))
        \/ (cr_success r = true /\ cr_error_message r = None
            /\ cr_output_path r
               = Some (default
                         (path_child source_dir
                            (path_name source_dir +:+ "."
                             +:+ Py.lower format_type))
                         output_path)
            /\ exists names,
                 w_fs w !! source_dir = Some (Dir names)
                 /\ cr_input_files_count r
                    = Z.of_nat
                        (length (image_candidates (w_fs w) source_dir names))
                 /\ 0 < cr_input_files_count r)).
Proof.
  unfold convert_gallery.
  destruct (String.eqb_spec (Py.lower format_type) "pdf") as [->|Hp].
  - apply convert_to_pdf_shape.
  - destruct (String.eqb_spec (Py.lower format_type) "cbz") as [->|Hc].
    + apply convert_to_cbz_shape.
    + ends_failed.
Qed.

End ConverterResults.

(** ** Archive converter: skipped images *)

Section ConverterSkips.

Variable be : Backend.
Variable cfg : ConversionConfig.

Lemma get_image_files_fs w directory :
  w_fs (snd (get_image_files directory w)) = w_fs w.
Proof.
  destruct (get_image_files_cases w directory)
    as (w' & Hfs & [H|[[e H]|(names & l & _ & H & _)]]); now rewrite H.
Qed.

(** An image that does not decode is skipped: a warning, no page, the file
    system as it was. *)
Lemma load_pdf_page_skips img_path w :
  is_ok (pil_open be img_path) = false ->
  exists msg,
    load_pdf_page be cfg img_path w
    = (Ok None,
       mkWorld (w_fs w) (w_log w ++ [FsOpen img_path])
         (w_console w ++ [(Warning, msg)])).
Proof.
  intros Hopen. unfold load_pdf_page, try_except.
  rewrite bind_run. unfold read_file, log_op, lookup_node.
  rewrite !bind_run. cbn [w_fs].
  destruct (w_fs w !! img_path) as [[|names]|]; unfold raise, lift_exc.
  - destruct (pil_open be img_path) as [img|e]; [discriminate|].
    rewrite bind_run. unfold display_print. cbn. eauto.
  - rewrite bind_run. unfold display_print. cbn. eauto.
  - rewrite bind_run. unfold display_print. cbn. eauto.
Qed.

Lemma load_all_skip images : forall w,
  Forall (fun p => is_ok (pil_open be p) = false) images ->
  exists w',
    mapM (load_pdf_page be cfg) images w = (Ok (map (fun _ => None) images), w')
    /\ w_fs w' = w_fs w
    /\ length (w_console w') = (length (w_console w) + length images)%nat.
Proof.
  induction images as [|p images IH]; intros w Hall.
  - exists w. cbn. split; [reflexivity|]. split; [reflexivity|lia].
  - inversion Hall as [|? ? Hp Hrest]; subst.
    destruct (load_pdf_page_skips p w Hp) as [msg Hload].
    cbn [mapM]. rewrite bind_run, Hload.
    destruct (IH (mkWorld (w_fs w) (w_log w ++ [FsOpen p])
                    (w_console w ++ [(Warning, msg)])) Hrest)
      as (w' & Hm & Hfs & Hc).
    rewrite bind_run, Hm. exists w'. split; [reflexivity|].
    split; [exact Hfs|]. rewrite Hc. cbn [w_console length].
    rewrite length_app. cbn [length]. lia.
Qed.

(** X9. No image decodes: when the directory has image files and Pillow
    opens none of them, [convert_to_pdf] fails with "No images could be
    processed" and the number of the files as count; it has written
    nothing, the file system is as before, and it has printed one warning
    per file. *)
Theorem convert_to_pdf_none_decodes w source_dir output_path delete_source
    quality x l :
  fst (get_image_files source_dir w) = Ok (x :: l) ->
  Forall (fun p => is_ok (pil_open be p) = false) (x :: l) ->
  let out := convert_to_pdf be cfg source_dir output_path delete_source
               quality w in
  fst out = Ok (mkConversionResult false None (Z.of_nat (length (x :: l)))
                  (Some "No images could be processed"))
  /\ w_fs (snd out) = w_fs w
  /\ length (w_console (snd out))
     = (length (w_console w) + length (x :: l))%nat.
Proof.
  intros Hg Hall out. subst out.
  pose proof (get_image_files_fs w source_dir) as Hfs.
  destruct (get_image_files source_dir w) as [res w1] eqn:E.
  simpl in Hg, Hfs. subst res.
  assert (Hc1 : w_console w1 = w_console w).
  { destruct (get_image_files_cases w source_dir)
      as (w' & _ & [H|[[e H]|(names & l' & Hd & H & _)]]);
      rewrite E in H; try discriminate.
    rewrite (get_image_files_dir w source_dir names Hd) in E.
    injection E as _ <-. reflexivity. }
  destruct (load_all_skip (x :: l) w1 Hall) as (w' & Hm & Hfs' & Hc).
  unfold convert_to_pdf, try_except. rewrite bind_run, E, bind_run, Hm.
  replace (omap id (map (fun _ => None) (x :: l))) with (@nil Image).
  - cbn. rewrite Hfs', Hfs, Hc, Hc1. auto.
  - clear. induction (x :: l) as [|y r IH]; [reflexivity|]. simpl. exact IH.
Qed.




End ConverterSkips.

(** X9, at a directory of two images and back ends that open nothing. *)
Lemma convert_to_pdf_none_decodes_witness :
  let w := gallery_world ["2.png"; "1.png"] in
  let out := convert_to_pdf failing_backend default_conversion gallery_dir None
               false None w in
  fst out = Ok (mkConversionResult false None 2
                  (Some "No images could be processed"))
  /\ w_fs (snd out) = w_fs w
  /\ length (w_console (snd out)) = (length (w_console w) + 2)%nat.
Proof.
  intros w.
  apply (convert_to_pdf_none_decodes failing_backend default_conversion w
           gallery_dir None false None
           (path_child gallery_dir "1.png") [path_child gallery_dir "2.png"]).
  - vm_compute. reflexivity.
  - repeat constructor.
Defined.


(** ** Natural sort: names, case and numbers *)

Section NaturalSortMore.

Ltac by_cases_on c := destruct c as [[] [] [] [] [] [] [] []]; reflexivity.

Lemma is_decimal_lower c : Py.is_decimal (Py.lower_char c) = Py.is_decimal c.
Proof. by_cases_on c. Qed.

Lemma isdigit_lower c : Py.isdigit_char (Py.lower_char c) = Py.isdigit_char c.
Proof. by_cases_on c. Qed.

Lemma lower_lower c : Py.lower_char (Py.lower_char c) = Py.lower_char c.
Proof. by_cases_on c. Qed.

Lemma lower_digit c : Py.isdigit_char c = true -> Py.lower_char c = c.
Proof.
  destruct c as [[] [] [] [] [] [] [] []]; intros H; try reflexivity;
    discriminate H.
Qed.

Lemma lower_idem s : Py.lower (Py.lower s) = Py.lower s.
Proof. induction s as [|c s IH]; simpl; [reflexivity|]. now rewrite lower_lower, IH. Qed.

Lemma lower_digits s :
  Py.all_chars Py.isdigit_char s = true -> Py.lower s = s.
Proof.
  induction s as [|c s IH]; simpl; [reflexivity|].
  rewrite andb_true_iff. intros [Hc Hs]. now rewrite lower_digit, IH.
Qed.

Lemma all_digits_lower s :
  Py.all_chars Py.isdigit_char (Py.lower s) = Py.all_chars Py.isdigit_char s.
Proof.
  induction s as [|c s IH]; simpl; [reflexivity|]. now rewrite isdigit_lower, IH.
Qed.

Lemma re_split_digits_lower text :
  re_split_digits (Py.lower text) = map Py.lower (re_split_digits text).
Proof.
  induction text as [|c r IH]; [reflexivity|].
  cbn [Py.lower re_split_digits]. rewrite is_decimal_lower, IH.
  destruct (Py.is_decimal c) eqn:Hc.
  - assert (Hl : Py.lower_char c = c).
    { apply lower_digit. unfold Py.isdigit_char. now rewrite Hc. }
    rewrite Hl.
    destruct (re_split_digits r) as [|[|a t] [|d rest]];
      cbn [map Py.lower]; rewrite ?Hl; reflexivity.
  - destruct (re_split_digits r) as [|t rest]; reflexivity.
Qed.

Lemma key_of_piece_lower p : key_of_piece (Py.lower p) = key_of_piece p.
Proof.
  unfold key_of_piece.
  assert (Hd : Py.isdigit (Py.lower p) = Py.isdigit p).
  { destruct p as [|c p]; [reflexivity|]. unfold Py.isdigit.
    cbn [Py.lower]. apply (all_digits_lower (String c p)). }
  rewrite Hd. destruct (Py.isdigit p) eqn:E.
  - rewrite lower_digits; [reflexivity|].
    destruct p; [discriminate|exact E].
  - now rewrite lower_idem.
Qed.

(** X13. The key ignores letter case: the key of a name is the key of its
    lowercase form, so names that differ only in the case of their letters
    have the same key. *)
Theorem natural_sort_key_ignores_case text :
  _natural_sort_key (Py.lower text) = _natural_sort_key text.
Proof.
  unfold _natural_sort_key. rewrite re_split_digits_lower.
  induction (re_split_digits text) as [|p ps IH]; [reflexivity|].
  cbn [map exc_map]. now rewrite key_of_piece_lower, IH.
Qed.






End NaturalSortMore.


Section NaturalSortNumbers.

Lemma append_nil_r (s : string) : s +:+ "" = s.
Proof. induction s as [|c s IH]; [reflexivity|]. now rewrite append_cons, IH. Qed.

Lemma re_split_digits_text t s :
  Py.all_chars (fun c => negb (Py.is_decimal c)) t = true ->
  re_split_digits (t +:+ s)
  = match re_split_digits s with
    | p :: r => (t +:+ p) :: r
    | [] => [t]
    end.
Proof.
  induction t as [|c t IH]; intros Ht.
  - rewrite append_nil_l. destruct (re_split_digits s) eqn:E; [|reflexivity].
    pose proof (re_split_digits_alternating s) as Ha. rewrite E in Ha.
    discriminate.
  - cbn [Py.all_chars] in Ht. apply andb_true_iff in Ht as [Hc Ht].
    apply negb_true_iff in Hc. rewrite append_cons.
    cbn [re_split_digits]. rewrite Hc, (IH Ht).
    destruct (re_split_digits s); reflexivity.
Qed.

(** The text [s] does not begin with a decimal digit. *)
Let no_digit_first (s : string) : bool :=
  match s with
  | EmptyString => true
  | String c _ => negb (Py.is_decimal c)
  end.

Lemma re_split_digits_run d : forall s,
  Py.nonempty d = true -> Py.all_chars Py.is_decimal d = true ->
  no_digit_first s = true ->
  re_split_digits (d +:+ s) = "" :: d :: re_split_digits s.
Proof.
  induction d as [|c d IH]; intros s Hn Hd Hs; [discriminate|].
  cbn [Py.all_chars] in Hd. apply andb_true_iff in Hd as [Hc Hd].
  rewrite append_cons. cbn [re_split_digits]. rewrite Hc.
  destruct d as [|c' d].
  - rewrite append_nil_l. destruct s as [|x s]; [reflexivity|].
    simpl in Hs. apply negb_true_iff in Hs.
    cbn [re_split_digits]. rewrite Hs.
    destruct (re_split_digits s); reflexivity.
  - rewrite (IH s eq_refl Hd Hs). reflexivity.
Qed.

Lemma decimal_key d :
  Py.nonempty d = true -> Py.all_chars Py.is_decimal d = true ->
  key_of_piece d = Ok (KInt (Py.decimal_value 0 d)).
Proof.
  intros Hn Hd. unfold key_of_piece, Py.isdigit, Py.int.
  destruct d as [|c d]; [discriminate|].
  now rewrite (decimal_isdigit _ Hd), Hd.
Qed.

Lemma list_lt_irrefl k : list_lt k k = Ok false.
Proof.
  induction k as [|x k IH]; [reflexivity|]. simpl.
  assert (H : item_eq x x = true).
  { destruct x; simpl; [apply Z.eqb_refl|apply String.eqb_refl]. }
  now rewrite H.
Qed.

(** X15. Digit runs compare as numbers: two names that differ in one run
    of decimal digits only, after a text without digits and before a text
    that does not begin with a digit, have keys that compare as the values
    of the two runs do; runs of equal value (leading zeros) give equal
    keys. *)
Theorem natural_order_compares_numbers prefix d1 d2 suffix :
  Py.all_chars (fun c => negb (Py.is_decimal c)) prefix = true ->
  Py.nonempty d1 = true -> Py.all_chars Py.is_decimal d1 = true ->
  Py.nonempty d2 = true -> Py.all_chars Py.is_decimal d2 = true ->
  match suffix with
  | EmptyString => true
  | String c _ => negb (Py.is_decimal c)
  end = true ->
  is_ok (_natural_sort_key (prefix +:+ d1 +:+ suffix)) = true ->
  exists k1 k2,
    _natural_sort_key (prefix +:+ d1 +:+ suffix) = Ok k1
    /\ _natural_sort_key (prefix +:+ d2 +:+ suffix) = Ok k2
    /\ list_lt k1 k2
       = Ok (Z.ltb (Py.decimal_value 0 d1) (Py.decimal_value 0 d2))
    /\ (Py.decimal_value 0 d1 = Py.decimal_value 0 d2 -> k1 = k2).
Proof.
  intros Hp Hn1 Hd1 Hn2 Hd2 Hs Hok.
  assert (Hkey : forall d, Py.nonempty d = true ->
            Py.all_chars Py.is_decimal d = true ->
            _natural_sort_key (prefix +:+ d +:+ suffix)
            = (kp ← key_of_piece prefix;
               ks ← exc_map key_of_piece (re_split_digits suffix);
               Ok (kp :: KInt (Py.decimal_value 0 d) :: ks))).
  { intros d Hn Hd. unfold _natural_sort_key.
    rewrite (re_split_digits_text prefix _ Hp).
    rewrite (re_split_digits_run d suffix Hn Hd Hs), append_nil_r.
    cbn [exc_map]. rewrite (decimal_key d Hn Hd).
    destruct (key_of_piece prefix); [|reflexivity]. simpl.
    destruct (exc_map key_of_piece (re_split_digits suffix)); reflexivity. }
  rewrite (Hkey d1 Hn1 Hd1) in Hok. rewrite (Hkey d1 Hn1 Hd1), (Hkey d2 Hn2 Hd2).
  destruct (key_of_piece prefix) as [kp|] eqn:Ekp; [|discriminate].
  simpl in *.
  destruct (exc_map key_of_piece (re_split_digits suffix)) as [ks|];
    [|discriminate].
  simpl. eexists _, _. split; [reflexivity|]. split; [reflexivity|].
  assert (Hkp : item_eq kp kp = true).
  { destruct kp; simpl; [apply Z.eqb_refl|apply String.eqb_refl]. }
  split.
  - simpl. rewrite Hkp.
    destruct (Z.eqb_spec (Py.decimal_value 0 d1) (Py.decimal_value 0 d2))
      as [E|E]; [|reflexivity].
    rewrite E, Z.ltb_irrefl. apply list_lt_irrefl.
  - intros E. now rewrite E.
Qed.

Lemma pad3_steps :
  forallb (fun n => (str_lt (pad3 (Z.of_nat n)) (pad3 (Z.of_nat n + 1))
                     && Nat.eqb (String.length (pad3 (Z.of_nat n))) 3)%bool)
          (seq 1 998)
  = true.
Proof. vm_compute. reflexivity. Qed.

Lemma str_lt_trans a b c :
  str_lt a b = true -> str_lt b c = true -> str_lt a c = true.
Proof.
  intros H1 H2. eapply str_lt_le_trans; [exact H1|].
  now apply str_lt_asym.
Qed.

(** X12. Archive names keep the order of the images: for 1 <= i < j <=
    999 the names [pad3 i] and [pad3 j] have three characters and [pad3 i]
    comes first in text order; from the thousandth image on this fails
    ("1000" comes before "999"). *)
Theorem pad3_keeps_order i j :
  1 <= i -> i < j -> j <= 999 ->
  str_lt (pad3 i) (pad3 j) = true
  /\ String.length (pad3 i) = 3%nat
  /\ str_lt (pad3 1000) (pad3 999) = true.
Proof.
  intros Hi Hij Hj.
  assert (Hstep : forall n, 1 <= n <= 998 ->
            str_lt (pad3 n) (pad3 (n + 1)) = true
            /\ String.length (pad3 n) = 3%nat).
  { intros n Hn. pose proof pad3_steps as H.
    rewrite forallb_forall in H.
    specialize (H (Z.to_nat n)). rewrite Z2Nat.id in H by lia.
    assert (Hin : In (Z.to_nat n) (seq 1 998)) by (apply in_seq; lia).
    apply H, andb_true_iff in Hin as [H1 H2].
    apply Nat.eqb_eq in H2. auto. }
  split; [|split; [apply Hstep; lia|reflexivity]].
  assert (Hk : forall k : nat, i + Z.of_nat k + 1 <= 999 ->
             str_lt (pad3 i) (pad3 (i + Z.of_nat k + 1)) = true).
  { induction k as [|k IH]; intros Hb.
    - replace (i + Z.of_nat 0 + 1) with (i + 1) by lia. apply Hstep. lia.
    - eapply str_lt_trans; [apply IH; lia|].
      replace (i + Z.of_nat (S k) + 1) with (i + Z.of_nat k + 1 + 1) by lia.
      apply Hstep. lia. }
  replace j with (i + Z.of_nat (Z.to_nat (j - i - 1)) + 1) by lia.
  apply Hk. lia.
Qed.

End NaturalSortNumbers.

(** X15, at img2.png and img10.png. *)
Lemma natural_order_compares_numbers_witness :
  exists k1 k2,
    _natural_sort_key ("img" +:+ "2" +:+ ".png") = Ok k1
    /\ _natural_sort_key ("img" +:+ "10" +:+ ".png") = Ok k2
    /\ list_lt k1 k2
       = Ok (Z.ltb (Py.decimal_value 0 "2") (Py.decimal_value 0 "10"))
    /\ (Py.decimal_value 0 "2" = Py.decimal_value 0 "10" -> k1 = k2).
Proof.
  apply (natural_order_compares_numbers "img" "2" "10" ".png"); reflexivity.
Defined.

(** X12, at the second and the tenth image. *)
Lemma pad3_keeps_order_witness :
  str_lt (pad3 2) (pad3 10) = true
  /\ String.length (pad3 2) = 3%nat
  /\ str_lt (pad3 1000) (pad3 999) = true.
Proof. apply (pad3_keeps_order 2 10); lia. Defined.

(** ** Download jobs: results, history and configuration *)

Section DownloaderMore.

Variable json_dumps : json -> string.
Variable flavour : PathFlavour.
Variable config : DownloadConfig.
Variable base_extractor base_other : list (string * json).

Local Abbreviation download_gallery' :=
  (download_gallery json_dumps flavour config base_extractor base_other).
Local Abbreviation download_multiple' :=
  (download_multiple json_dumps flavour config base_extractor base_other).
Local Abbreviation _prepare_config' :=
  (_prepare_config base_extractor base_other).

(** A line that counts as a downloaded file is a line the download path
    can be read from. *)
Lemma count_without_path output :
  _extract_download_path flavour output = None ->
  _count_downloaded_files output = 0.
Proof.
  unfold _extract_download_path, _count_downloaded_files.
  destruct (List.find _ _) as [line|] eqn:E; [discriminate|]. intros _.
  pose proof (find_none _ _ E) as Hnone. clear E.
  induction (Py.split_char "010" output) as [|line lines IH]; [reflexivity|].
  cbn [List.filter].
  assert (Hl : (Py.contains "Downloads" line && mentions_image line)%bool
               = false) by (apply Hnone; left; reflexivity).
  destruct (mentions_image line), (Py.contains "Downloads" line);
    try discriminate; cbn [andb]; apply IH; intros x Hx; apply Hnone;
    right; exact Hx.
Qed.

Lemma count_nonneg output : 0 <= _count_downloaded_files output.
Proof. unfold _count_downloaded_files. lia. Qed.

(** The result and the store of a job whose three external calls
    returned. *)
Lemma download_gallery_returned env now url gallery_info db config_file
    result :
  write_temp_config env (_prepare_config' gallery_info) = Ok config_file ->
  subprocess_run env (_prepare_config' gallery_info)
    (gallery_dl_command config config_file url) = Ok result ->
  os_unlink env config_file = Ok () ->
  download_gallery' env now url gallery_info db
  = if Z.eqb (returncode result) 0
    then (mkDownloadResult true gallery_info
            (_extract_download_path flavour (stdout result))
            (_count_downloaded_files (stdout result)) None,
          match enable_history config, gallery_info,
                _extract_download_path flavour (stdout result) with
          | true, Some g, Some p =>
              snd (add_download json_dumps db g (str_of_path flavour p)
                     (_count_downloaded_files (stdout result)) "hentaifox" now)
          | _, _, _ => db
          end)
    else (mkDownloadResult false gallery_info None 0 (Some (stderr result)),
          db).
Proof.
  intros Hf Hr Hu. unfold download_gallery. rewrite Hf. simpl.
  rewrite Hr. simpl. rewrite Hu. simpl.
  destruct (Z.eqb (returncode result) 0); reflexivity.
Qed.

(** The outcomes of a job: an exception of an external call, or the three
    calls returned. *)
Lemma download_gallery_cases env now url gallery_info db :
  (exists e,
     download_gallery' env now url gallery_info db
     = (mkDownloadResult false gallery_info None 0 (Some (reported_text e)),
        db))
  \/ (exists config_file result,
        write_temp_config env (_prepare_config' gallery_info) = Ok config_file
        /\ subprocess_run env (_prepare_config' gallery_info)
             (gallery_dl_command config config_file url) = Ok result
        /\ os_unlink env config_file = Ok ()).
Proof.
  destruct (write_temp_config env (_prepare_config' gallery_info))
    as [f|e] eqn:Hf.
  - destruct (subprocess_run env (_prepare_config' gallery_info)
                (gallery_dl_command config f url)) as [r|e] eqn:Hr.
    + destruct (os_unlink env f) as [[]|e] eqn:Hu.
      * right. exists f, r. auto.
      * left. exists e. unfold download_gallery, failure, reported_text.
        rewrite Hf. simpl. rewrite Hr. simpl. rewrite Hu. simpl.
        now destruct (exc_class e).
    + left. exists e. unfold download_gallery, failure, reported_text.
      rewrite Hf. simpl. rewrite Hr. simpl. now destruct (exc_class e).
  - left. exists e. unfold download_gallery, failure, reported_text.
    rewrite Hf. simpl. now destruct (exc_class e).
Qed.

(** A job hands back the gallery metadata it was given. *)
Lemma download_gallery_info env now url gallery_info db :
  dr_gallery_info (fst (download_gallery' env now url gallery_info db))
  = gallery_info.
Proof.
  destruct (download_gallery_cases env now url gallery_info db)
    as [[e ->]|(f & res & Hf & Hr & Hu)]; [reflexivity|].
  rewrite (download_gallery_returned _ _ _ _ _ _ _ Hf Hr Hu).
  now destruct (Z.eqb (returncode res) 0).
Qed.

(** X16. The result of a job is well formed: whatever the external calls
    do, [download_gallery] returns a result that carries the gallery
    metadata it was given and a file count that is not negative; a success
    has no error message, and no files when no download path was found; a
    failure has no path, no files, an error message, and leaves the
    history store as it was. *)
Theorem download_gallery_result env now url gallery_info db :
  let out :=
    download_gallery json_dumps flavour config base_extractor base_other
      env now url gallery_info db in
  let r := fst out in
  let db' := snd out in
  dr_gallery_info r = gallery_info
  /\ 0 <= dr_files_downloaded r
  /\ (if dr_success r
      then dr_error_message r = None
           /\ match dr_download_path r with
              | Some _ => True
              | None => dr_files_downloaded r = 0
              end
      else dr_download_path r = None /\ dr_files_downloaded r = 0
           /\ is_Some (dr_error_message r) /\ db' = db).
Proof.
  destruct (download_gallery_cases env now url gallery_info db)
    as [[e ->]|(f & res & Hf & Hr & Hu)].
  - simpl. split; [reflexivity|]. split; [lia|]. eauto.
  - rewrite (download_gallery_returned _ _ _ _ _ _ _ Hf Hr Hu).
    destruct (Z.eqb (returncode res) 0); simpl.
    + split; [reflexivity|]. split; [apply count_nonneg|].
      split; [reflexivity|].
      destruct (_extract_download_path flavour (stdout res)) eqn:E;
        [exact I|apply count_without_path, E].
    + split; [reflexivity|]. split; [lia|]. eauto.
Qed.

(** X17. A finished download is recorded once: when a job succeeds for a
    gallery with metadata, history is enabled and a download path was
    found, the gallery counts as downloaded from the site "hentaifox"
    afterwards; a gallery that was recorded already leaves the store as it
    was, a new one adds exactly one row. *)
Theorem download_gallery_records env now url g db :
  let r := fst (download_gallery' env now url (Some g) db) in
  let db' := snd (download_gallery' env now url (Some g) db) in
  dr_success r = true ->
  enable_history config = true ->
  is_Some (dr_download_path r) ->
  is_downloaded db' (gi_id g) "hentaifox" = true
  /\ (if is_downloaded db (gi_id g) "hentaifox"
      then db' = db
      else length (downloads db') = S (length (downloads db))).
Proof.
  destruct (download_gallery_cases env now url (Some g) db)
    as [[e ->]|(f & res & Hf & Hr & Hu)]; [simpl; discriminate|].
  rewrite (download_gallery_returned _ _ _ _ _ _ _ Hf Hr Hu).
  destruct (Z.eqb (returncode res) 0); simpl; [|discriminate].
  intros _ -> [p Hp]. rewrite Hp.
  set (n := _count_downloaded_files (stdout res)).
  destruct (is_downloaded db (gi_id g) "hentaifox") eqn:Hd.
  - destruct (add_download_existing json_dumps db g (str_of_path flavour p) n
                "hentaifox" now Hd) as (e & _ & _ & _ & ->).
    simpl. auto.
  - destruct (add_download_fresh json_dumps db g (str_of_path flavour p) n
                "hentaifox" now Hd) as (e & -> & Hid & Hs & _).
    simpl. split.
    + apply is_downloaded_count.
      rewrite (count_key_app _ _ _ (sqlite_sequence db)).
      replace (key_matches (gi_id g) "hentaifox" e) with true; [lia|].
      symmetry. apply key_matches_spec. auto.
    + rewrite length_app. simpl. lia.
Qed.

(** X18. The history store changes in one case only: after any job the
    store is the one before, unless the job succeeded, history is enabled,
    metadata was given, a download path was found and the gallery was not
    recorded yet. *)
Theorem download_gallery_store_changes env now url gallery_info db :
  let r := fst (download_gallery' env now url gallery_info db) in
  let db' := snd (download_gallery' env now url gallery_info db) in
  db' = db
  \/ (dr_success r = true /\ enable_history config = true
      /\ is_Some (dr_download_path r)
      /\ exists g, gallery_info = Some g
                   /\ is_downloaded db (gi_id g) "hentaifox" = false
                   /\ is_downloaded db' (gi_id g) "hentaifox" = true).
Proof.
  destruct (download_gallery_cases env now url gallery_info db)
    as [[e ->]|(f & res & Hf & Hr & Hu)]; [left; reflexivity|].
  rewrite (download_gallery_returned _ _ _ _ _ _ _ Hf Hr Hu).
  destruct (Z.eqb (returncode res) 0); simpl; [|left; reflexivity].
  destruct (enable_history config); [|left; reflexivity].
  destruct gallery_info as [g|]; [|left; reflexivity].
  destruct (_extract_download_path flavour (stdout res)) as [p|];
    [|left; reflexivity].
  set (n := _count_downloaded_files (stdout res)).
  destruct (is_downloaded db (gi_id g) "hentaifox") eqn:Hd.
  - left.
    destruct (add_download_existing json_dumps db g (str_of_path flavour p) n
                "hentaifox" now Hd) as (e & _ & _ & _ & ->).
    reflexivity.
  - right. split; [reflexivity|]. split; [reflexivity|]. split; [eauto|].
    exists g. split; [reflexivity|]. split; [exact Hd|].
    destruct (add_download_fresh json_dumps db g (str_of_path flavour p) n
                "hentaifox" now Hd) as (e & -> & Hid & Hs & _).
    simpl. apply is_downloaded_count.
    rewrite (count_key_app _ _ _ (sqlite_sequence db)).
    replace (key_matches (gi_id g) "hentaifox" e) with true; [lia|].
    symmetry. apply key_matches_spec. auto.
Qed.


(** X19. Batch downloads never touch the history store: whatever the jobs
    do and in whatever order they complete, [download_multiple] returns
    the store it was given, and none of its results carries gallery
    metadata. *)
Theorem download_multiple_no_history has_callback envs clock urls completed
    db :
  let out :=
    download_multiple json_dumps flavour config base_extractor base_other
      has_callback envs clock urls completed db in
  out.2 = db /\ Forall (fun r => dr_gallery_info r = None) out.1.2.
Proof.
  unfold download_multiple.
  destruct (gather_jobs json_dumps flavour config base_extractor base_other
              has_callback (Z.of_nat (length urls)) envs clock completed 0%nat
              db) as [Hres Hdb].
  split; [exact Hdb|]. rewrite Hres. apply Forall_forall.
  intros r Hin. apply list_elem_of_fmap in Hin as (future & -> & _).
  apply download_gallery_info.
Qed.


(** *** The configuration written for gallery-dl *)

Lemma dict_get_set k v d : dict_get k (dict_set k v d) = Some v.
Proof.
  induction d as [|[k' v'] d IH]; simpl.
  - now rewrite String.eqb_refl.
  - destruct (String.eqb k' k) eqn:E; simpl.
    + now rewrite String.eqb_refl.
    + now rewrite E.
Qed.

Lemma dict_get_set_ne k k0 v d :
  k0 <> k -> dict_get k0 (dict_set k v d) = dict_get k0 d.
Proof.
  intros Hne. induction d as [|[k' v'] d IH]; simpl.
  - destruct (String.eqb_spec k k0); [congruence|reflexivity].
  - destruct (String.eqb_spec k' k) as [->|Hk]; simpl.
    + destruct (String.eqb_spec k k0); [congruence|reflexivity].
    + destruct (String.eqb k' k0); [reflexivity|exact IH].
Qed.

(** X21. The configuration keeps the base settings: the data
    [_prepare_config] hands to gallery-dl is the base configuration with
    the section "extractor" replaced, and that section is the base
    extractor settings with two entries written: the file name pattern
    "{filename}.{extension}" and the directory, the sanitized title of the
    gallery or "{title}" without metadata.  Every other entry is looked up
    as in the base. *)
Theorem prepare_config_keeps_base gallery_info :
  exists top extractor,
    _prepare_config' gallery_info = JDict top
    /\ forall k,
         dict_get k top
         = (if String.eqb "extractor" k then Some (JDict extractor)
            else dict_get k base_other)
         /\ dict_get k extractor
            = if String.eqb "filename" k
              then Some (JStr "{filename}.{extension}")
              else if String.eqb "directory" k
                   then Some (JList [JStr match gallery_info with
                                          | Some g =>
                                              _sanitize_filename (gi_title g)
                                          | None => "{title}"
                                          end])
                   else dict_get k base_extractor.
Proof.
  unfold _prepare_config. eexists _, _. split; [reflexivity|].
  intros k. split.
  - destruct (String.eqb_spec "extractor" k) as [<-|Hne].
    + apply dict_get_set.
    + apply dict_get_set_ne. congruence.
  - destruct (String.eqb_spec "filename" k) as [<-|Hf].
    + apply dict_get_set.
    + rewrite dict_get_set_ne by congruence.
      destruct (String.eqb_spec "directory" k) as [<-|Hd].
      * rewrite dict_get_set. now destruct gallery_info.
      * apply dict_get_set_ne. congruence.
Qed.

(** *** The count of the command line *)





End DownloaderMore.

(** X17, at a job that prints two downloaded files, on a new store. *)
Lemma download_gallery_records_witness :
  let g := mkGalleryInfo "147838" "A title" "https://hentaifox.com/gallery/147838/"
             [] None None None None None in
  let out :=
    download_gallery (fun _ => "{}") posix_like sample_config [] []
      (exit0_env ("Downloads/HFox/A title/1.jpg" +:+ String "010"
                  "Downloads/HFox/A title/2.jpg"))
      "2024-01-01 00:00:00" "https://hentaifox.com/gallery/147838/" (Some g)
      empty_database in
  is_downloaded out.2 "147838" "hentaifox" = true
  /\ length (downloads out.2) = 1%nat
  /\ dr_files_downloaded out.1 = 2.
Proof.
  set (g := mkGalleryInfo "147838" "A title"
              "https://hentaifox.com/gallery/147838/" [] None None None None
              None).
  pose proof (download_gallery_records (fun _ => "{}") posix_like sample_config
                [] []
                (exit0_env ("Downloads/HFox/A title/1.jpg" +:+ String "010"
                            "Downloads/HFox/A title/2.jpg"))
                "2024-01-01 00:00:00" "https://hentaifox.com/gallery/147838/"
                g empty_database) as H.
  simpl in H.
  destruct H as [H1 H2]; [vm_compute; reflexivity|reflexivity
                         |vm_compute; eauto|].
  split; [exact H1|]. split; [exact H2|]. vm_compute. reflexivity.
Defined.



(** ** Directory names: trimming and the name the command line expects *)

Section SanitizeMore.

Lemma lstrip_head s :
  match Py.lstrip s with
  | EmptyString => True
  | String c _ => Py.isspace_char c = false
  end.
Proof.
  induction s as [|c s IH]; simpl; [exact I|].
  destruct (Py.isspace_char c) eqn:E; [exact IH|exact E].
Qed.

Lemma rstrip_idem s : Py.rstrip (Py.rstrip s) = Py.rstrip s.
Proof.
  induction s as [|c s IH]; [reflexivity|].
  cbn [Py.rstrip].
  destruct (Py.rstrip s) as [|d r] eqn:E.
  - destruct (Py.isspace_char c) eqn:Ec; [reflexivity|].
    cbn [Py.rstrip]. now rewrite Ec.
  - cbn [Py.rstrip]. fold Py.rstrip.
    change (match Py.rstrip (String d r) with
            | EmptyString =>
                if Py.isspace_char c then EmptyString else String c EmptyString
            | String a0 s0 => String c (String a0 s0)
            end = String c (String d r)).
    now rewrite IH.
Qed.

Lemma rstrip_head c s :
  Py.isspace_char c = false ->
  exists r, Py.rstrip (String c s) = String c r.
Proof.
  intros Hc. cbn [Py.rstrip].
  destruct (Py.rstrip s); [rewrite Hc|]; eauto.
Qed.

Lemma strip_idem s : Py.strip (Py.strip s) = Py.strip s.
Proof.
  unfold Py.strip.
  pose proof (lstrip_head s) as Hh.
  destruct (Py.lstrip s) as [|c r] eqn:E; [reflexivity|].
  destruct (rstrip_head c r Hh) as [r' Hr]. rewrite Hr.
  cbn [Py.lstrip]. rewrite Hh, <- Hr. apply rstrip_idem.
Qed.

(** A renaming of characters that keeps white space apart from the rest
    goes through [strip]. *)
Lemma lstrip_map f s :
  (forall c, Py.isspace_char (f c) = Py.isspace_char c) ->
  Py.lstrip (map_chars f s) = map_chars f (Py.lstrip s).
Proof.
  intros Hf. induction s as [|c s IH]; [reflexivity|].
  cbn [map_chars Py.lstrip]. rewrite Hf.
  destruct (Py.isspace_char c); [exact IH|reflexivity].
Qed.

Lemma rstrip_map f s :
  (forall c, Py.isspace_char (f c) = Py.isspace_char c) ->
  Py.rstrip (map_chars f s) = map_chars f (Py.rstrip s).
Proof.
  intros Hf. induction s as [|c s IH]; [reflexivity|].
  cbn [map_chars Py.rstrip]. rewrite IH, Hf.
  destruct (Py.rstrip s); [destruct (Py.isspace_char c)|]; reflexivity.
Qed.

Lemma strip_map f s :
  (forall c, Py.isspace_char (f c) = Py.isspace_char c) ->
  Py.strip (map_chars f s) = map_chars f (Py.strip s).
Proof.
  intros Hf. unfold Py.strip. now rewrite lstrip_map, rstrip_map.
Qed.

Lemma sanitize_char_space c :
  Py.isspace_char (sanitize_char c) = Py.isspace_char c.
Proof. destruct c as [[] [] [] [] [] [] [] []]; reflexivity. Qed.

Lemma sanitize_char_idem c : sanitize_char (sanitize_char c) = sanitize_char c.
Proof. destruct c as [[] [] [] [] [] [] [] []]; reflexivity. Qed.

Lemma length_map_chars f s : String.length (map_chars f s) = String.length s.
Proof. induction s as [|c s IH]; simpl; congruence. Qed.

(** The name of a title of at most 200 characters. *)
Lemma sanitize_filename_short title :
  (String.length title <= 200)%nat ->
  _sanitize_filename title = map_chars sanitize_char (Py.strip title).
Proof.
  intros Hlen. unfold _sanitize_filename. rewrite replace_all_map.
  rewrite length_map_chars.
  destruct (Nat.ltb_spec 200 (String.length title)); [lia|].
  apply strip_map, sanitize_char_space.
Qed.

(** The chain of replacements of the command line is the same pass. *)
Lemma cli_safe_title_map title :
  cli_safe_title title = map_chars sanitize_char title.
Proof.
  unfold cli_safe_title. cbn [fold_left].
  rewrite !replace_char_map, !map_chars_compose.
  apply map_chars_ext.
  intros [[] [] [] [] [] [] [] []]; reflexivity.
Qed.

(** X23. A sanitized name is trimmed: for every title, the name
    [_sanitize_filename] returns has no white space at its start or its
    end, so [strip] leaves it as it is. *)
Theorem sanitize_filename_trimmed title :
  Py.strip (_sanitize_filename title) = _sanitize_filename title.
Proof. unfold _sanitize_filename. apply strip_idem. Qed.

(** X24. Sanitizing is stable on short titles: for a title of at most 200
    characters, sanitizing the sanitized name gives the same name. *)
Theorem sanitize_filename_idempotent title :
  (String.length title <= 200)%nat ->
  _sanitize_filename (_sanitize_filename title) = _sanitize_filename title.
Proof.
  intros Hlen. rewrite (sanitize_filename_short title Hlen).
  rewrite sanitize_filename_short.
  - rewrite <- !strip_map by apply sanitize_char_space.
    rewrite strip_idem, map_chars_compose.
    f_equal. apply map_chars_ext, sanitize_char_idem.
  - rewrite length_map_chars. etransitivity; [apply length_strip|exact Hlen].
Qed.

(** X25. The command line looks for the directory the downloader names:
    for a title of at most 200 characters without white space at its start
    or end, the directory name the progress display computes with its
    chain of [replace] calls is the name [_sanitize_filename] puts into
    the configuration. *)
Theorem cli_safe_title_agrees title :
  (String.length title <= 200)%nat ->
  Py.strip title = title ->
  cli_safe_title title = _sanitize_filename title.
Proof.
  intros Hlen Hs. rewrite cli_safe_title_map, sanitize_filename_short, Hs;
    [reflexivity|exact Hlen].
Qed.

End SanitizeMore.

(** X24, at a title with a colon and blanks around it. *)
Lemma sanitize_filename_idempotent_witness :
  _sanitize_filename (_sanitize_filename " Vol 1: Start ") = "Vol 1_ Start".
Proof.
  rewrite (sanitize_filename_idempotent " Vol 1: Start ").
  - vm_compute. reflexivity.
  - vm_compute. lia.
Defined.

(** X25, at a title with a colon and a question mark. *)
Lemma cli_safe_title_agrees_witness :
  cli_safe_title "Vol 1: Start?" = _sanitize_filename "Vol 1: Start?".
Proof.
  apply (cli_safe_title_agrees "Vol 1: Start?").
  - vm_compute. lia.
  - vm_compute. reflexivity.
Defined.

(** ** Site provider: gallery ids, parsed galleries, page numbers *)

Section SiteFacts.

Lemma strip_prefix_append p : forall s r,
  strip_prefix p s = Some r -> s = p +:+ r.
Proof.
  induction p as [|a p IH]; intros s r; simpl.
  - now intros [= ->].
  - destruct s as [|b s]; [discriminate|].
    destruct (Ascii.eqb_spec a b) as [->|]; [|discriminate].
    intros H. rewrite append_cons. f_equal. now apply IH.
Qed.

Lemma prefix_append p (r : string) : String.prefix p (p +:+ r) = true.
Proof.
  induction p as [|a p IH]; [rewrite append_nil_l; now destruct r|].
  rewrite append_cons, prefix_cons, Ascii.eqb_refl. exact IH.
Qed.

Lemma contains_prefix sub s :
  String.prefix sub s = true -> Py.contains sub s = true.
Proof. intros H. destruct s; simpl in *; rewrite H; reflexivity. Qed.

Lemma contains_append sub (pre post : string) :
  Py.contains sub (pre +:+ sub +:+ post) = true.
Proof.
  induction pre as [|c pre IH].
  - rewrite append_nil_l. apply contains_prefix, prefix_append.
  - rewrite append_cons. cbn [Py.contains]. rewrite IH. apply orb_true_r.
Qed.

Lemma append_assoc (a b c : string) : (a +:+ b) +:+ c = a +:+ (b +:+ c).
Proof.
  induction a as [|x a IH]; [reflexivity|].
  now rewrite !append_cons, IH.
Qed.

Lemma lower_append (a b : string) :
  Py.lower (a +:+ b) = Py.lower a +:+ Py.lower b.
Proof.
  induction a as [|x a IH]; [reflexivity|].
  rewrite append_cons. cbn [Py.lower]. now rewrite IH, append_cons.
Qed.

Lemma re_search_suffix m : forall s g,
  re_search m s = Some g -> exists pre t, s = pre +:+ t /\ m t = Some g.
Proof.
  induction s as [|c s IH]; intros g; cbn [re_search].
  - destruct (m "") as [g'|] eqn:E; [|discriminate].
    intros [= <-]. exists "", "". auto.
  - destruct (m (String c s)) as [g'|] eqn:E.
    + intros [= <-]. exists "", (String c s). auto.
    + intros H. destruct (IH g H) as (pre & t & -> & Ht).
      exists (String c pre), t. auto.
Qed.

Lemma span_decimal_spec : forall s,
  s = (Py.span_decimal s).1 +:+ (Py.span_decimal s).2
  /\ Py.all_chars Py.is_decimal (Py.span_decimal s).1 = true.
Proof.
  induction s as [|c s [IH1 IH2]]; [split; reflexivity|].
  cbn [Py.span_decimal].
  destruct (Py.is_decimal c) eqn:E; [|split; reflexivity].
  destruct (Py.span_decimal s) as [d t]. simpl in *.
  rewrite E, IH2. split; [|reflexivity].
  rewrite append_cons. now f_equal.
Qed.

Lemma match_literal_digits_spec lit s d :
  match_literal_digits lit s = Some d ->
  Py.nonempty d = true /\ Py.all_chars Py.is_decimal d = true
  /\ exists post, s = lit +:+ d +:+ post.
Proof.
  unfold match_literal_digits.
  destruct (strip_prefix lit s) as [r|] eqn:E; [|discriminate].
  destruct (Py.nonempty (Py.span_decimal r).1) eqn:En; [|discriminate].
  intros [= <-]. split; [exact En|].
  destruct (span_decimal_spec r) as [Hr Hd]. split; [exact Hd|].
  exists (Py.span_decimal r).2. apply strip_prefix_append in E.
  now rewrite <- Hr.
Qed.


(** What a URL with a gallery id looks like. *)
Lemma extract_gallery_id_spec url id :
  extract_gallery_id url = Some id ->
  Py.nonempty id = true /\ Py.all_chars Py.is_decimal id = true
  /\ exists pre post, url = pre +:+ "hentaifox.com/gallery/" +:+ id +:+ post.
Proof.
  unfold extract_gallery_id. intros H.
  apply re_search_suffix in H as (pre & t & -> & Ht).
  apply match_literal_digits_spec in Ht as (Hn & Hd & post & ->).
  split; [exact Hn|]. split; [exact Hd|]. now exists pre, post.
Qed.

Lemma gallery_url_valid url id :
  extract_gallery_id url = Some id -> is_valid_url url = true.
Proof.
  intros H. apply extract_gallery_id_spec in H as (_ & _ & pre & post & ->).
  unfold is_valid_url. rewrite lower_append.
  change "hentaifox.com/gallery/" with ("hentaifox.com" +:+ "/gallery/").
  rewrite !append_assoc, !lower_append.
  change (Py.lower "hentaifox.com") with "hentaifox.com".
  apply contains_append.
Qed.


Lemma absolute_http url : Py.startswith "http" (absolute url) = true.
Proof.
  unfold absolute. destruct (Py.startswith "http" url) eqn:E; [exact E|].
  reflexivity.
Qed.

(** A gallery read from one item of the list. *)
Lemma parse_thumb_gallery item g :
  parse_thumb item = Some g ->
  gi_tags g = []
  /\ Py.startswith "http" (gi_url g) = true
  /\ extract_gallery_id (gi_url g) = Some (gi_id g)
  /\ is_valid_url (gi_url g) = true
  /\ match gi_thumbnail_url g with
     | Some (String c r) => Py.startswith "http" (String c r) = true
     | _ => True
     end.
Proof.
  unfold parse_thumb.
  destruct (th_inner_thumb item) as [inner|]; [|discriminate]. simpl.
  destruct (List.find _ (it_hrefs inner)) as [[href|]|]; try discriminate.
  simpl.
  destruct (extract_gallery_id (absolute href)) as [id|] eqn:E;
    [|discriminate].
  simpl. intros [= <-]. cbn [gi_tags gi_url gi_id gi_thumbnail_url].
  split; [reflexivity|]. split; [apply absolute_http|].
  split; [exact E|]. split; [exact (gallery_url_valid _ _ E)|].
  destruct (it_img inner) as [img|]; [|exact I].
  destruct (img_data_src img) as [[|c r]|].
  - destruct (img_src img) as [[|c r]|]; try exact I.
    pose proof (absolute_http (String c r)) as Ha.
    destruct (absolute (String c r)); [exact I|exact Ha].
  - pose proof (absolute_http (String c r)) as Ha.
    destruct (absolute (String c r)); [exact I|exact Ha].
  - destruct (img_src img) as [[|c r]|]; try exact I.
    pose proof (absolute_http (String c r)) as Ha.
    destruct (absolute (String c r)); [exact I|exact Ha].
Qed.

Lemma length_omap_le {A B} (f : A -> option B) (l : list A) :
  (length (omap f l) <= length l)%nat.
Proof.
  induction l as [|x l IH]; [reflexivity|].
  change (omap f (x :: l))
    with (match f x with Some y => y :: omap f l | None => omap f l end).
  destruct (f x); cbn [length]; lia.
Qed.

(** X27. The galleries of a result page are well formed: whatever the
    page holds, [_parse_gallery_list] returns at most one gallery per
    item, and each has an absolute URL of the site from which its id is
    read back, no tags, and a thumbnail URL that is absolute when it is
    not empty. *)
Theorem parse_gallery_list_galleries soup current_page :
  let result := _parse_gallery_list soup current_page in
  (length (sr_galleries result) <= length (soup_thumbs soup))%nat
  /\ Forall (fun g =>
               gi_tags g = []
               /\ Py.startswith "http" (gi_url g) = true
               /\ extract_gallery_id (gi_url g) = Some (gi_id g)
               /\ is_valid_url (gi_url g) = true
               /\ match gi_thumbnail_url g with
                  | Some (String c r) => Py.startswith "http" (String c r) = true
                  | _ => True
                  end)
            (sr_galleries result).
Proof.
  simpl. split; [apply length_omap_le|].
  apply Forall_forall. intros g Hg.
  apply list_elem_of_omap in Hg as (item & _ & Hi).
  exact (parse_thumb_gallery item g Hi).
Qed.

Lemma max_list_ge l : forall n, n <= max_list n l.
Proof.
  unfold max_list. induction l as [|x l IH]; intros n; simpl; [lia|].
  specialize (IH (Z.max n x)). lia.
Qed.



End SiteFacts.



(** ** Archive converter: deleting the sources *)

Section DeleteSources.

(** Taking [p] out of its directory changes [p] and the directory. *)
Lemma detach_other p q fs :
  q <> p -> q <> path_parent p -> detach p fs !! q = fs !! q.
Proof.
  intros Hp Hpp. unfold detach.
  destruct (delete p fs !! path_parent p) as [[|names]|];
    rewrite ?lookup_insert_ne by congruence;
    apply lookup_delete_ne; congruence.
Qed.


(** One round of the loop over the image files. *)
Lemma unlink_round_fs p w :
  let out :=
    (ex ← path_exists p; if ex : bool then path_unlink p else mret ()) w in
  w_fs out.2 = w_fs w \/ w_fs out.2 = detach p (w_fs w).
Proof.
  rewrite bind_run, path_exists_run.
  destruct (bool_decide (is_Some (w_fs w !! p))); [|left; reflexivity].
  unfold path_unlink, log_op, lookup_node. rewrite !bind_run. cbn [w_fs].
  destruct (w_fs w !! p) as [[|names]|]; [right|left|left]; reflexivity.
Qed.


(** The loop leaves alone what is neither an image file nor the directory
    of one. *)
Lemma unlink_loop_frame q image_files : forall w,
  q ∉ image_files -> q ∉ map path_parent image_files ->
  w_fs (mapM (fun img_path =>
                ex ← path_exists img_path;
                if ex : bool then path_unlink img_path else mret ())
          image_files w).2 !! q
  = w_fs w !! q.
Proof.
  induction image_files as [|p rest IH]; intros w Hq Hqp; [reflexivity|].
  apply not_elem_of_cons in Hq as [Hne Hq].
  cbn [map] in Hqp. apply not_elem_of_cons in Hqp as [Hnep Hqp].
  cbn [mapM]. rewrite bind_run.
  pose proof (unlink_round_fs p w) as Hfs. cbn zeta in Hfs.
  destruct ((ex ← path_exists p; if ex : bool then path_unlink p else mret ()) w)
    as [[[]|e] w1]; cbn [snd] in Hfs.
  - rewrite bind_run. specialize (IH w1 Hq Hqp). revert IH.
    match goal with
    | |- context [mapM ?f rest w1] =>
        destruct (mapM f rest w1) as [[us|e] w2]
    end; cbn; intros ->; destruct Hfs as [->| ->];
      try reflexivity; apply detach_other; assumption.
  - cbn [snd]. destruct Hfs as [->| ->];
      [reflexivity|apply detach_other; assumption].
Qed.


(** What follows the loop: the directory is listed, and removed when it is
    empty. *)
Lemma remove_directory_fs source_dir (k : list Path -> M unit) w :
  (forall l w0, w_fs (k l w0).2 = w_fs w0
                \/ w_fs (k l w0).2 = detach source_dir (w_fs w0)) ->
  let out := (remaining_files ← path_iterdir source_dir; k remaining_files) w in
  w_fs out.2 = w_fs w \/ w_fs out.2 = detach source_dir (w_fs w).
Proof.
  intros Hk. rewrite bind_run.
  unfold path_iterdir, log_op, lookup_node. rewrite !bind_run. cbn [w_fs].
  destruct (w_fs w !! source_dir) as [[|names]|]; try (left; reflexivity).
  apply (Hk (map (path_child source_dir) names)
            (mkWorld (w_fs w) (w_log w ++ [FsIterdir source_dir])
               (w_console w))).
Qed.

Lemma after_loop_fs source_dir (remaining_files : list Path) w :
  let out :=
    match remaining_files with
    | [] =>
        _ ← path_rmdir source_dir;
        display_print Info
          ("Deleted empty directory: " +:+ path_name source_dir)
    | _ =>
        let non_image_files :=
          filter (fun f => is_supported f = false) remaining_files in
        if Nat.eqb (length non_image_files) (length remaining_files)
        then display_print Info
               ("Kept directory with "
                +:+ Py.str_of_Z (Z.of_nat (length non_image_files))
                +:+ " non-image files")
        else mret ()
    end w in
  w_fs out.2 = w_fs w \/ w_fs out.2 = detach source_dir (w_fs w).
Proof.
  destruct remaining_files as [|f rest].
  - rewrite bind_run. unfold path_rmdir, log_op, lookup_node.
    rewrite !bind_run. cbn [w_fs].
    destruct (w_fs w !! source_dir) as [[|[|n names]]|];
      [left|right|left|left]; reflexivity.
  - cbv zeta. destruct (Nat.eqb _ _); left; reflexivity.
Qed.

(** The file system after [_delete_source_files]: that after the loop,
    with the directory taken out or not. *)
Lemma delete_source_files_run image_files source_dir w :
  let loop :=
    mapM (fun img_path =>
            ex ← path_exists img_path;
            if ex : bool then path_unlink img_path else mret ())
      image_files w in
  let out := _delete_source_files image_files source_dir w in
  out.1 = Ok ()
  /\ (w_fs out.2 = w_fs loop.2
      \/ w_fs out.2 = detach source_dir (w_fs loop.2)).
Proof.
  cbv zeta. unfold _delete_source_files, try_except. rewrite bind_run.
  match goal with
  | |- context [mapM ?f image_files w] =>
      destruct (mapM f image_files w) as [[us|e] w1]
  end; cbn [snd].
  - pose proof (remove_directory_fs source_dir
                  (fun remaining_files =>
                     match remaining_files with
                     | [] =>
                         _ ← path_rmdir source_dir;
                         display_print Info
                           ("Deleted empty directory: "
                            +:+ path_name source_dir)
                     | _ =>
                         let non_image_files :=
                           filter (fun f => is_supported f = false)
                                  remaining_files in
                         if Nat.eqb (length non_image_files)
                                    (length remaining_files)
                         then display_print Info
                                ("Kept directory with "
                                 +:+ Py.str_of_Z
                                       (Z.of_nat (length non_image_files))
                                 +:+ " non-image files")
                         else mret ()
                     end) w1 (after_loop_fs source_dir)) as Hfs.
    cbv zeta in Hfs.
    match goal with
    | |- context [match ?c with pair _ _ => _ end] =>
        destruct c as [[[]|e] w2]
    end; cbn [fst snd] in *; auto.
  - cbn. auto.
Qed.

(** X29. Deleting the sources touches nothing else: whatever the file
    system holds, [_delete_source_files] returns without an exception, and
    an entry that is neither one of the image files, nor the directory of
    one, nor the source directory or the directory above it, is after the
    call what it was before. *)
Theorem delete_source_files_frame image_files source_dir w q :
  q ∉ image_files ->
  q ∉ map path_parent image_files ->
  q <> source_dir ->
  q <> path_parent source_dir ->
  let out := _delete_source_files image_files source_dir w in
  out.1 = Ok () /\ w_fs out.2 !! q = w_fs w !! q.
Proof.
  intros Hq Hqp Hs Hsp.
  destruct (delete_source_files_run image_files source_dir w) as [Hok Hfs].
  cbv zeta. split; [exact Hok|].
  pose proof (unlink_loop_frame q image_files w Hq Hqp) as Hloop.
  destruct Hfs as [->| ->]; [exact Hloop|].
  rewrite detach_other by assumption. exact Hloop.
Qed.


End DeleteSources.

(** X29, at a gallery of two images: the directory above the gallery is
    not touched while the images are deleted. *)
Lemma delete_source_files_frame_witness :
  let w := gallery_world ["1.jpg"; "2.jpg"] in
  let other := mkPath "/" ["Downloads"; "other.txt"] in
  w_fs (_delete_source_files
          [path_child gallery_dir "1.jpg"; path_child gallery_dir "2.jpg"]
          gallery_dir w).2 !! other
  = w_fs w !! other.
Proof.
  cbv zeta.
  apply (delete_source_files_frame
           [path_child gallery_dir "1.jpg"; path_child gallery_dir "2.jpg"]
           gallery_dir (gallery_world ["1.jpg"; "2.jpg"])
           (mkPath "/" ["Downloads"; "other.txt"])).
  - intros H. apply elem_of_cons in H as [H|H]; [discriminate|].
    apply elem_of_cons in H as [H|H]; [discriminate|].
    apply elem_of_nil in H. exact H.
  - intros H. apply elem_of_cons in H as [H|H]; [discriminate|].
    apply elem_of_cons in H as [H|H]; [discriminate|].
    apply elem_of_nil in H. exact H.
  - discriminate.
  - discriminate.
Defined.

